(** * Session and access-control core of the appointment-booking client

    A shallow embedding of [contexts/AuthContext.tsx] (the session manager:
    [AuthProvider], its asynchronous actions and the [useAuth] hook) and
    of [navigation/AppNavigator.tsx] (the role-gated route table), followed by
    the properties the specification states about them.

    Asynchronous functions are functions in a state-and-exception monad over
    [World]: the two [useState] cells of the provider, the contents of
    AsyncStorage, the outcomes the storage back end is going to report, and
    the console.  The authentication service ([services/auth]) is an external
    collaborator and enters as a record of its answers. *)

From stdpp Require Import gmap strings list fin_maps pretty.
From Stdlib Require Import Ascii String ZArith Lia.

Open Scope string_scope.

(** ** Values *)

(** A thrown JavaScript [Error]: its [name] and its [message]. *)
Record JsError := { err_name : string; err_message : string }.

Definition Result (A : Type) : Type := JsError + A.

(** Modelled from the spec: the [User] type of [types/auth] (not among the
    sources): unique id, display name, e-mail, role and avatar reference.
    The role is the string the navigator compares against; a record read back
    from storage can carry any string there. *)
Record User := {
  id : string;
  name : string;
  email : string;
  role : string;
  image : string;
}.

(** Modelled from the spec: [LoginCredentials] of [types/auth], an identifier
    and a secret. *)
Record LoginCredentials := { cred_email : string; cred_password : string }.

(** Modelled from the spec: [RegisterData] of [types/auth]. *)
Record RegisterData := {
  reg_name : string;
  reg_email : string;
  reg_password : string;
}.

(** What [authService.signIn] and [authService.register] resolve to: the code
    reads [response.user] and [response.token]. *)
Record AuthResponse := { response_user : User; response_token : string }.

Module STORAGE_KEYS.
Definition USER : string := "@MedicalApp:user".
Definition TOKEN : string := "@MedicalApp:token".
End STORAGE_KEYS.

(** ** JSON.stringify on a [User] *)

Definition dquote : string := String "034"%char EmptyString.
Definition backslash : string := String "092"%char EmptyString.

Definition hex_digit (n : nat) : string :=
  match n with
  | 10 => "a" | 11 => "b" | 12 => "c" | 13 => "d" | 14 => "e" | 15 => "f"
  | 0 => "0" | 1 => "1" | 2 => "2" | 3 => "3" | 4 => "4"
  | 5 => "5" | 6 => "6" | 7 => "7" | 8 => "8" | _ => "9"
  end.

(** One character of a JSON string literal: quote and backslash are escaped,
    control characters use the short escapes or [\u00xx]. *)
Definition json_char (c : ascii) : string :=
  let n := nat_of_ascii c in
  if Nat.eqb n 34 then backslash +:+ dquote
  else if Nat.eqb n 92 then backslash +:+ backslash
  else if Nat.eqb n 8 then backslash +:+ "b"
  else if Nat.eqb n 9 then backslash +:+ "t"
  else if Nat.eqb n 10 then backslash +:+ "n"
  else if Nat.eqb n 12 then backslash +:+ "f"
  else if Nat.eqb n 13 then backslash +:+ "r"
  else if Nat.ltb n 32 then
    backslash +:+ "u00" +:+ hex_digit (n / 16) +:+ hex_digit (n mod 16)
  else String c EmptyString.

Fixpoint json_escape (s : string) : string :=
  match s with
  | EmptyString => EmptyString
  | String c rest => json_char c +:+ json_escape rest
  end.

Definition json_string (s : string) : string :=
  dquote +:+ json_escape s +:+ dquote.

Definition json_member (key value : string) : string :=
  json_string key +:+ ":" +:+ json_string value.

Definition JSON_stringify (u : User) : string :=
  "{" +:+ json_member "id" (id u)
  +:+ "," +:+ json_member "name" (name u)
  +:+ "," +:+ json_member "email" (email u)
  +:+ "," +:+ json_member "role" (role u)
  +:+ "," +:+ json_member "image" (image u)
  +:+ "}".

(** ** The world the provider runs in *)

Record World := {
  user : option User;            (* useState<User | null>(null) *)
  loading : bool;                (* useState(true) *)
  storage : gmap string string;  (* contents of AsyncStorage *)
  faults : list (option JsError);
    (* outcome of the coming storage calls, in order: [Some e] rejects with
       [e]; once the list is used up every call succeeds *)
  console : list (string * JsError);  (* console.error calls, newest first *)
}.

(** State of a freshly mounted provider over given storage contents. *)
Definition mounted (s : gmap string string) (f : list (option JsError)) : World :=
  {| user := None; loading := true; storage := s; faults := f; console := [] |}.

Definition with_user (o : option User) (w : World) : World :=
  {| user := o; loading := loading w; storage := storage w;
     faults := faults w; console := console w |}.

Definition with_loading (b : bool) (w : World) : World :=
  {| user := user w; loading := b; storage := storage w;
     faults := faults w; console := console w |}.

Definition with_storage (s : gmap string string) (w : World) : World :=
  {| user := user w; loading := loading w; storage := s;
     faults := faults w; console := console w |}.

Definition with_faults (f : list (option JsError)) (w : World) : World :=
  {| user := user w; loading := loading w; storage := storage w;
     faults := f; console := console w |}.

Definition with_console (c : list (string * JsError)) (w : World) : World :=
  {| user := user w; loading := loading w; storage := storage w;
     faults := faults w; console := c |}.

(** ** Asynchronous computations *)

Definition Async (A : Type) : Type := World → Result A * World.

Definition resolve {A} (a : A) : Async A := λ w, (inr a, w).
Definition throw {A} (e : JsError) : Async A := λ w, (inl e, w).

Definition await {A B} (m : Async A) (k : A → Async B) : Async B :=
  λ w, match m w with
       | (inl e, w') => (inl e, w')
       | (inr a, w') => k a w'
       end.

#[global] Instance Async_ret : MRet Async := @resolve.
#[global] Instance Async_bind : MBind Async := λ A B k m, await m k.

(** [try { body } catch (error) { handler error }] *)
Definition try_catch {A} (body : Async A) (handler : JsError → Async A) : Async A :=
  λ w, match body w with
       | (inl e, w') => handler e w'
       | (inr a, w') => (inr a, w')
       end.

(** [try { body } finally { cleanup }]: the cleanup runs on both exits and
    the body's outcome is kept unless the cleanup itself throws. *)
Definition try_finally {A} (body : Async A) (cleanup : Async unit) : Async A :=
  λ w, match body w with
       | (r, w') =>
           match cleanup w' with
           | (inl e, w'') => (inl e, w'')
           | (inr _, w'') => (r, w'')
           end
       end.

(** Settling of a promise handed back by the authentication service. *)
Definition settle {A} (r : Result A) : Async A := λ w, (r, w).

Definition setUser (o : option User) : Async unit :=
  λ w, (inr (), with_user o w).

Definition setLoading (b : bool) : Async unit :=
  λ w, (inr (), with_loading b w).

Definition console_error (msg : string) (e : JsError) : Async unit :=
  λ w, (inr (), with_console ((msg, e) :: console w) w).

Module AsyncStorage.

(** One call to the storage back end: it takes the next scheduled outcome;
    a rejected call leaves the contents as they were. *)
Definition call (f : gmap string string → gmap string string) : Async unit :=
  λ w, match faults w with
       | Some e :: rest => (inl e, with_faults rest w)
       | None :: rest => (inr (), with_faults rest (with_storage (f (storage w)) w))
       | [] => (inr (), with_storage (f (storage w)) w)
       end.

Definition setItem (key value : string) : Async unit := call (insert key value).
Definition removeItem (key : string) : Async unit := call (delete key).

End AsyncStorage.

(** ** The authentication service, as seen from the provider *)

Record AuthService := {
  svc_signIn : LoginCredentials → Result AuthResponse;
  svc_register : RegisterData → Result AuthResponse;
  svc_signOut : Result unit;
  svc_getStoredUser : gmap string string → Result (option User);
  svc_loadRegisteredUsers : Result unit;
}.

(** ** AuthProvider *)

Section AuthProvider.

Variable authService : AuthService.

Definition loadStoredUser : Async unit :=
  try_finally
    (try_catch
       (storedUser ← (λ w, settle (svc_getStoredUser authService (storage w)) w);
        match storedUser with
        | Some u => setUser (Some u)
        | None => resolve ()
        end)
       (λ error, console_error "Erro ao carregar usuário:" error))
    (setLoading false).

Definition loadRegisteredUsers : Async unit :=
  try_catch
    (settle (svc_loadRegisteredUsers authService))
    (λ error, console_error "Erro ao carregar usuários registrados:" error).

Definition signIn (credentials : LoginCredentials) : Async unit :=
  try_catch
    (response ← settle (svc_signIn authService credentials);
     setUser (Some (response_user response));;
     AsyncStorage.setItem STORAGE_KEYS.USER (JSON_stringify (response_user response));;
     AsyncStorage.setItem STORAGE_KEYS.TOKEN (response_token response))
    (λ error, throw error).

Definition register (data : RegisterData) : Async unit :=
  try_catch
    (response ← settle (svc_register authService data);
     setUser (Some (response_user response));;
     AsyncStorage.setItem STORAGE_KEYS.USER (JSON_stringify (response_user response));;
     AsyncStorage.setItem STORAGE_KEYS.TOKEN (response_token response))
    (λ error, throw error).

Definition signOut : Async unit :=
  try_catch
    (settle (svc_signOut authService);;
     setUser None;;
     AsyncStorage.removeItem STORAGE_KEYS.USER;;
     AsyncStorage.removeItem STORAGE_KEYS.TOKEN)
    (λ error, console_error "Erro ao fazer logout:" error).

Definition updateUser (updatedUser : User) : Async unit :=
  try_catch
    (setUser (Some updatedUser);;
     AsyncStorage.setItem STORAGE_KEYS.USER (JSON_stringify updatedUser))
    (λ error, console_error "Erro ao atualizar usuário:" error;; throw error).

End AuthProvider.

(** ** The context and the [useAuth] hook *)

(** The value the provider publishes:
    [{ user, loading, signIn, register, signOut, updateUser }]. *)
Record AuthContextData := {
  ctx_user : option User;
  ctx_loading : bool;
  ctx_signIn : LoginCredentials → Async unit;
  ctx_register : RegisterData → Async unit;
  ctx_signOut : Async unit;
  ctx_updateUser : User → Async unit;
}.

(** The JavaScript values a context can hold here: the two falsy ones, the
    object literal without any property, and a fully populated object. *)
Inductive ContextValue :=
| JsUndefined
| JsNull
| EmptyObject
| ContextObject (data : AuthContextData).

(** Truthiness as [!context] tests it: every object is truthy. *)
Definition truthy (v : ContextValue) : bool :=
  match v with
  | JsUndefined | JsNull => false
  | EmptyObject | ContextObject _ => true
  end.

(** [createContext<AuthContextData>({} as AuthContextData)]: the default a
    consumer sees when no provider encloses it. *)
Definition AuthContext_default : ContextValue := EmptyObject.

Definition AuthProvider_value (authService : AuthService) (w : World) : ContextValue :=
  ContextObject
    {| ctx_user := user w;
       ctx_loading := loading w;
       ctx_signIn := signIn authService;
       ctx_register := register authService;
       ctx_signOut := signOut authService;
       ctx_updateUser := updateUser |}.

(** Where in the component tree a hook is called. *)
Inductive CallSite :=
| OutsideProvider
| InsideProvider (authService : AuthService) (w : World).

Definition useContext_AuthContext (site : CallSite) : ContextValue :=
  match site with
  | OutsideProvider => AuthContext_default
  | InsideProvider authService w => AuthProvider_value authService w
  end.

Definition useAuth_error : JsError :=
  {| err_name := "Error";
     err_message := "useAuth must be used within an AuthProvider" |}.

Definition useAuth (site : CallSite) : Result ContextValue :=
  let context := useContext_AuthContext site in
  if negb (truthy context) then inl useAuth_error else inr context.

(** ** AppNavigator *)

Record Screen := { screen_name : string; component : string }.

(** What the component returns: [null], or the navigator with its screens in
    document order. *)
Inductive Rendered :=
| RenderNull
| RenderNavigator (screens : list Screen).

(** [cond && <Stack.Screen .../>] inside a fragment. *)
Definition render_when (cond : bool) (s : Screen) : list Screen :=
  if cond then [s] else [].

Definition publicScreens : list Screen :=
  [ {| screen_name := "Login"; component := "LoginScreen" |};
    {| screen_name := "Register"; component := "RegisterScreen" |} ].

Definition commonScreens : list Screen :=
  [ {| screen_name := "Home"; component := "HomeScreen" |};
    {| screen_name := "CreateAppointment"; component := "CreateAppointmentScreen" |};
    {| screen_name := "Profile"; component := "ProfileScreen" |};
    {| screen_name := "EditProfile"; component := "EditProfileScreen" |};
    {| screen_name := "Notifications"; component := "NotificationsScreen" |};
    {| screen_name := "Settings"; component := "SettingsScreen" |} ].

Definition protectedScreens (u : User) : list Screen :=
  render_when (String.eqb (role u) "admin")
    {| screen_name := "AdminDashboard"; component := "AdminDashboardScreen" |}
  ++ render_when (String.eqb (role u) "doctor")
    {| screen_name := "DoctorDashboard"; component := "DoctorDashboardScreen" |}
  ++ render_when (String.eqb (role u) "patient")
    {| screen_name := "PatientDashboard"; component := "PatientDashboardScreen" |}
  ++ commonScreens.

(** The body of the component once [{ user, loading }] has been read. *)
Definition navigator (user : option User) (loading : bool) : Rendered :=
  if loading then RenderNull
  else RenderNavigator
         match user with
         | None => publicScreens
         | Some u => protectedScreens u
         end.

(** Reading [user] and [loading] off the context value; a property the object
    lacks is [undefined], which both tests treat as falsy. *)
Definition prop_user (v : ContextValue) : option User :=
  match v with
  | ContextObject d => ctx_user d
  | _ => None
  end.

Definition prop_loading (v : ContextValue) : bool :=
  match v with
  | ContextObject d => ctx_loading d
  | _ => false
  end.

Definition AppNavigator (site : CallSite) : Result Rendered :=
  match useAuth site with
  | inl e => inl e
  | inr context => inr (navigator (prop_user context) (prop_loading context))
  end.

(** ** What the router exposes *)

(** Names of the routes the rendered navigator registers. *)
Definition reachable (r : Rendered) : list string :=
  match r with
  | RenderNull => []
  | RenderNavigator screens => screen_name <$> screens
  end.

(** The navigator is given no [initialRouteName], so it opens on the first
    registered screen. *)
Definition initialRoute (r : Rendered) : option string :=
  head (reachable r).

Definition CommonSet : list string :=
  ["Home"; "CreateAppointment"; "Profile"; "EditProfile"; "Notifications"; "Settings"].

Definition UnauthenticatedSet : list string := ["Login"; "Register"].

Definition enumerated_role (r : string) : bool :=
  String.eqb r "admin" || String.eqb r "doctor" || String.eqb r "patient".

Definition dashboard (r : string) : string :=
  if String.eqb r "admin" then "AdminDashboard"
  else if String.eqb r "doctor" then "DoctorDashboard"
  else "PatientDashboard".

(** The router's view of a session held by a mounted provider. *)
Definition router (authService : AuthService) (w : World) : Result Rendered :=
  AppNavigator (InsideProvider authService w).

(** ** Sequences of session-manager calls *)

Inductive Op :=
| OpRestore
| OpSignIn (credentials : LoginCredentials)
| OpRegister (data : RegisterData)
| OpSignOut
| OpUpdateUser (updatedUser : User).

Definition perform (authService : AuthService) (op : Op) : Async unit :=
  match op with
  | OpRestore => loadStoredUser authService
  | OpSignIn c => signIn authService c
  | OpRegister d => register authService d
  | OpSignOut => signOut authService
  | OpUpdateUser u => updateUser u
  end.

(** The worlds a caller observes after each call of the sequence; a rejected
    call is the caller's to handle and the sequence goes on. *)
Fixpoint observations (authService : AuthService) (ops : list Op) (w : World) : list World :=
  match ops with
  | [] => []
  | op :: rest =>
      let w' := snd (perform authService op w) in
      w' :: observations authService rest w'
  end.

(** The identity entry is stored exactly when the token entry is. *)
Definition paired (s : gmap string string) : bool :=
  Bool.eqb (bool_decide (is_Some (s !! STORAGE_KEYS.USER)))
           (bool_decide (is_Some (s !! STORAGE_KEYS.TOKEN))).

(** Every [updateUser] of the sequence is issued while an identity entry is
    stored. *)
Fixpoint updates_on_stored (authService : AuthService) (ops : list Op) (w : World) : bool :=
  match ops with
  | [] => true
  | op :: rest =>
      match op with
      | OpUpdateUser _ => bool_decide (is_Some (storage w !! STORAGE_KEYS.USER))
      | _ => true
      end
      && updates_on_stored authService rest (snd (perform authService op w))
  end.

(** ** Sample data *)

Definition sample_user (r : string) : User :=
  {| id := "u1"; name := "Ana"; email := "ana@example.com"; role := r; image := "" |}.

Definition sample_credentials : LoginCredentials :=
  {| cred_email := "ana@example.com"; cred_password := "p" |}.

Definition sample_data : RegisterData :=
  {| reg_name := "Ana"; reg_email := "ana@example.com"; reg_password := "p" |}.

Definition invalid_credentials : JsError :=
  {| err_name := "Error"; err_message := "invalid credentials" |}.

Definition network_down : JsError :=
  {| err_name := "Error"; err_message := "network request failed" |}.

Definition disk_full : JsError :=
  {| err_name := "Error"; err_message := "database or disk is full" |}.

(** A service that accepts everybody as [u] with token [t1] and finds no
    stored user. *)
Definition accepting (u : User) : AuthService :=
  {| svc_signIn := λ _, inr {| response_user := u; response_token := "t1" |};
     svc_register := λ _, inr {| response_user := u; response_token := "t1" |};
     svc_signOut := inr ();
     svc_getStoredUser := λ _, inr None;
     svc_loadRegisteredUsers := inr () |}.

(** A service whose every call is rejected with [e]. *)
Definition rejecting (e : JsError) : AuthService :=
  {| svc_signIn := λ _, inl e;
     svc_register := λ _, inl e;
     svc_signOut := inl e;
     svc_getStoredUser := λ _, inl e;
     svc_loadRegisteredUsers := inl e |}.

(** A session signed in as [u], both entries stored, storage reliable. *)
Definition signed_in (u : User) : World :=
  {| user := Some u; loading := false;
     storage := <[STORAGE_KEYS.TOKEN := "t1"]> (<[STORAGE_KEYS.USER := JSON_stringify u]> ∅);
     faults := []; console := [] |}.

Definition ready : World :=
  {| user := None; loading := false; storage := ∅; faults := []; console := [] |}.

(** * The rest of the client *)

(** ** The provider's mount effect *)

(** A promise that is started and not awaited: whatever it settles to is
    dropped, what it did stays. *)
Definition detached {A} (m : Async A) : Async unit :=
  λ w, (inr (), snd (m w)).

(** [useEffect(() => { loadStoredUser(); loadRegisteredUsers(); }, [])]: both
    loads are started, each suspends on its one call to the service, and the
    two continuations run in the order in which the service answers. *)
Inductive SettleOrder := StoredUserFirst | RegisteredUsersFirst.

Definition onMount (authService : AuthService) (order : SettleOrder) : Async unit :=
  match order with
  | StoredUserFirst =>
      detached (loadStoredUser authService);; detached (loadRegisteredUsers authService)
  | RegisteredUsersFirst =>
      detached (loadRegisteredUsers authService);; detached (loadStoredUser authService)
  end.

(** ** AppRoutes *)

#[global] Instance Screen_eq_dec : EqDecision Screen.
Proof. solve_decision. Defined.

(** The stack of [routes/index.tsx]: three screens, in document order. *)
Definition AppRoutes : list Screen :=
  [ {| screen_name := "Home"; component := "HomeScreen" |};
    {| screen_name := "CreateAppointment"; component := "CreateAppointmentScreen" |};
    {| screen_name := "Profile"; component := "ProfileScreen" |} ].

(** ** NotificationBell *)

(** [notificationService.getUnreadCount], an external collaborator; counts are
    whole numbers. *)
Record NotificationService := {
  svc_getUnreadCount : string → Result Z;
}.

(** The state of one bell: its [useState(0)] cell, the user ids it has asked
    the service about (newest first) and its console. *)
Record Bell := {
  unreadCount : Z;
  requested : list string;
  bell_console : list (string * JsError);
}.

Definition Bell_initial : Bell :=
  {| unreadCount := 0; requested := []; bell_console := [] |}.

(** [!user?.id]: no user, or a user whose id is the empty string. *)
Definition no_user_id (user : option User) : bool :=
  match user with
  | None => true
  | Some u => String.eqb (id u) ""
  end.

Definition loadUnreadCount (notificationService : NotificationService)
    (user : option User) (b : Bell) : Result unit * Bell :=
  if no_user_id user then (inr (), b)
  else
    match user with
    | None => (inr (), b)
    | Some u =>
        let asked := id u :: requested b in
        match svc_getUnreadCount notificationService (id u) with
        | inr count =>
            (inr (), {| unreadCount := count; requested := asked;
                        bell_console := bell_console b |})
        | inl error =>
            (inr (), {| unreadCount := unreadCount b; requested := asked;
                        bell_console :=
                          ("Erro ao carregar contador de notificações:", error)
                          :: bell_console b |})
        end
    end.

(** The bell over time: each refresh (the mount, a tick of the 30-second
    interval, the screen regaining focus) runs [loadUnreadCount] with the
    user of that render and the service as it answers then. *)
Fixpoint refreshes (events : list (NotificationService * option User)) (b : Bell) : Bell :=
  match events with
  | [] => b
  | (notificationService, user) :: rest =>
      refreshes rest (snd (loadUnreadCount notificationService user b))
  end.

(** [Number.prototype.toString] on a whole number. *)
Definition toString (n : Z) : string := pretty n.

(** The badge over the bell: absent unless the count is positive, capped at
    [99+]. *)
Definition Badge_value (unreadCount : Z) : option string :=
  if (0 <? unreadCount)%Z
  then Some (if (99 <? unreadCount)%Z then "99+" else toString unreadCount)
  else None.

(** [handlePress]: the route handed to [navigation.navigate]. *)
Definition handlePress : string := "Notifications".

(** ** Header *)

Record HeaderBar := {
  avatar_uri : string;
  welcome : string;
  user_name : string;
  bell_target : string;   (* the NotificationBell it contains *)
}.

(** The header: [null] without a user, else the bar with the user's avatar
    and name and the bell. *)
Definition Header (site : CallSite) : Result (option HeaderBar) :=
  match useAuth site with
  | inl e => inl e
  | inr context =>
      inr match prop_user context with
          | None => None
          | Some u =>
              Some {| avatar_uri := image u; welcome := "Bem-vindo(a),";
                      user_name := name u; bell_target := handlePress |}
          end
  end.

(** ** Time slots *)

Fixpoint repeat_string (n : nat) (s : string) : string :=
  match n with
  | 0 => ""
  | S k => s +:+ repeat_string k s
  end.

(** [String.prototype.padStart]: a string already long enough is returned as
    it is; otherwise the pad string is repeated, and cut, to fill the gap. *)
Definition padStart (targetLength : nat) (padString : string) (s : string) : string :=
  let missing := targetLength - String.length s in
  substring 0 missing (repeat_string missing padString) +:+ s.

(** [generateTimeSlots], the same loop in [TimeSlotList] and in
    [AppointmentForm]: for each hour from 9 up to, not including, 18, the
    full hour and the half hour. *)
Definition generateTimeSlots : list string :=
  flat_map
    (λ hour : nat,
       [ padStart 2 "0" (pretty hour) +:+ ":00";
         padStart 2 "0" (pretty hour) +:+ ":30" ])
    (seq 9 (18 - 9)).

(** One card of the grid: its React key, whether it is drawn selected, and
    the time its press hands to [onSelectTime]. *)
Record TimeCard := {
  card_key : string;
  card_isSelected : bool;
  card_onPress : string;
}.

(** [TimeSlotList]: one card per slot; [selectedTime] is an optional prop. *)
Definition TimeSlotList (selectedTime : option string) : list TimeCard :=
  (λ time,
     {| card_key := time;
        card_isSelected := bool_decide (selectedTime = Some time);
        card_onPress := time |})
  <$> generateTimeSlots.

(** ** The date field of the appointment form *)

Definition is_digit (c : ascii) : bool :=
  Nat.leb 48 (nat_of_ascii c) && Nat.leb (nat_of_ascii c) 57.

(** [text.replace(/\D/g, '')].  Texts are strings of bytes; a character
    outside ASCII is a run of bytes none of which is a digit, so what is kept
    is what the expression keeps of the original text. *)
Fixpoint remove_non_digits (text : string) : string :=
  match text with
  | EmptyString => EmptyString
  | String c rest =>
      if is_digit c then String c (remove_non_digits rest)
      else remove_non_digits rest
  end.

(** [s.slice(from, to)] and [s.slice(from)] for indices that are not
    negative: both ends are cut at the length of the string. *)
Definition slice (s : string) (from to : nat) : string :=
  substring from (to - from) s.

Definition slice_from (s : string) (from : nat) : string :=
  substring from (String.length s - from) s.

(** [handleDateChange]: the value it hands to [setDateInput]. *)
Definition handleDateChange (text : string) : string :=
  let numbers := remove_non_digits text in
  if Nat.ltb 0 (String.length numbers) then
    if Nat.leb (String.length numbers) 2 then numbers
    else if Nat.leb (String.length numbers) 4 then
      slice numbers 0 2 +:+ "/" +:+ slice_from numbers 2
    else
      slice numbers 0 2 +:+ "/" +:+ slice numbers 2 4 +:+ "/" +:+ slice numbers 4 8
  else "".

(** [inputDate.match(/^(\d{2})\/(\d{2})\/(\d{4})$/)]: the three groups. *)
Definition match_date (inputDate : string) : option (string * string * string) :=
  match inputDate with
  | String d1 (String d2 (String s1 (String m1 (String m2 (String s2
      (String y1 (String y2 (String y3 (String y4 EmptyString))))))))) =>
      if is_digit d1 && is_digit d2 && Ascii.eqb s1 "/"
         && is_digit m1 && is_digit m2 && Ascii.eqb s2 "/"
         && is_digit y1 && is_digit y2 && is_digit y3 && is_digit y4
      then Some (String d1 (String d2 EmptyString),
                 String m1 (String m2 EmptyString),
                 String y1 (String y2 (String y3 (String y4 EmptyString))))
      else None
  | _ => None
  end.

(** [s.split('/')] *)
Fixpoint split_slash (s : string) : list string :=
  match s with
  | EmptyString => [EmptyString]
  | String c rest =>
      if Ascii.eqb c "/" then EmptyString :: split_slash rest
      else match split_slash rest with
           | first :: others => String c first :: others
           | [] => [String c EmptyString]
           end
  end.

(** Value of a run of decimal digits in front of [s], after [acc]. *)
Fixpoint leading_digits (acc : Z) (s : string) : Z :=
  match s with
  | String c rest =>
      if is_digit c
      then leading_digits (10 * acc + (Z.of_nat (nat_of_ascii c) - 48))%Z rest
      else acc
  | EmptyString => acc
  end.

(** [parseInt] on the strings the form hands to it, which carry no blank,
    sign or [0x] in front: the value of the leading decimal digits, and
    [None], standing for NaN, when the string does not start with a digit. *)
Definition parseInt (s : string) : option Z :=
  match s with
  | String c _ => if is_digit c then Some (leading_digits 0 s) else None
  | EmptyString => None
  end.

(** ** Dates *)

Open Scope Z_scope.

(** A time value is a count of milliseconds; [None] stands for NaN, the
    value of an invalid [Date].  Time values are local ones: the zone's
    offset from UTC is taken to be constant, so that comparing two dates
    compares their local time values. *)
Definition msPerDay : Z := 86400000.

Definition DayFromYear (y : Z) : Z :=
  365 * (y - 1970) + (y - 1969) `div` 4 - (y - 1901) `div` 100 + (y - 1601) `div` 400.

Definition DaysInYear (y : Z) : Z :=
  if negb (y `mod` 4 =? 0) then 365
  else if negb (y `mod` 100 =? 0) then 366
  else if negb (y `mod` 400 =? 0) then 365
  else 366.

Definition InLeapYear (y : Z) : Z := if DaysInYear y =? 366 then 1 else 0.

(** Days of the year before the first of month [mn] (0 is January). *)
Definition DaysBeforeMonth (y mn : Z) : Z :=
  if mn =? 0 then 0
  else if mn =? 1 then 31
  else InLeapYear y +
       (if mn =? 2 then 59 else if mn =? 3 then 90 else if mn =? 4 then 120
        else if mn =? 5 then 151 else if mn =? 6 then 181 else if mn =? 7 then 212
        else if mn =? 8 then 243 else if mn =? 9 then 273 else if mn =? 10 then 304
        else 334).

(** [MakeDay]: months beyond December carry into the years, days beyond the
    end of a month into the months that follow. *)
Definition MakeDay (year month date : Z) : Z :=
  let ym := year + month `div` 12 in
  let mn := month `mod` 12 in
  DayFromYear ym + DaysBeforeMonth ym mn + date - 1.

Definition MakeDate (day time : Z) : Z := day * msPerDay + time.

Definition TimeClip (t : Z) : option Z :=
  if Z.abs t <=? 8640000000000000 then Some t else None.

(** [new Date(year, month, day)]: a year from 0 to 99 means 1900 + year; the
    time of day is midnight. *)
Definition new_Date (year month day : option Z) : option Z :=
  match year, month, day with
  | Some y, Some m, Some d =>
      let yr := if (0 <=? y) && (y <=? 99) then 1900 + y else y in
      TimeClip (MakeDate (MakeDay yr m d) 0)
  | _, _, _ => None
  end.

(** One reading of the clock, [new Date()], by its local fields. *)
Record Reading := {
  getFullYear : Z;
  getMonth : Z;          (* 0 is January *)
  getDate : Z;           (* day of the month, from 1 *)
  timeWithinDay : Z;     (* milliseconds since local midnight *)
}.

Definition DaysInMonth (y mn : Z) : Z :=
  if mn =? 11 then 31 else DaysBeforeMonth y (mn + 1) - DaysBeforeMonth y mn.

(** The fields are those of an actual instant. *)
Definition valid_reading (r : Reading) : bool :=
  (0 <=? getMonth r) && (getMonth r <=? 11)
  && (1 <=? getDate r) && (getDate r <=? DaysInMonth (getFullYear r) (getMonth r))
  && (0 <=? timeWithinDay r) && (timeWithinDay r <? msPerDay)
  && (1970 <=? getFullYear r) && (getFullYear r <=? 9999).

Definition valueOf (r : Reading) : option Z :=
  TimeClip (MakeDate (MakeDay (getFullYear r) (getMonth r) (getDate r)) (timeWithinDay r)).

(** [r.setMonth(month)]: the new time value. *)
Definition setMonth (r : Reading) (month : Z) : option Z :=
  TimeClip (MakeDate (MakeDay (getFullYear r) month (getDate r)) (timeWithinDay r)).

(** [a >= b] and [a <= b] on time values: false as soon as one is NaN. *)
Definition date_ge (a b : option Z) : bool :=
  match a, b with Some x, Some y => y <=? x | _, _ => false end.

Definition date_le (a b : option Z) : bool :=
  match a, b with Some x, Some y => x <=? y | _, _ => false end.

(** The three readings one call of [validateDate] takes, in the order the
    code writes them: [today], the date whose month is then set, and the
    date whose month is read. *)
Record Clock := {
  clock_today : Reading;
  clock_base : Reading;
  clock_month : Reading;
}.

(** A clock that does not advance during the call. *)
Definition frozen (now : Reading) : Clock :=
  {| clock_today := now; clock_base := now; clock_month := now |}.

Definition option_pred (o : option Z) : option Z := (λ n, n - 1) <$> o.

Definition validateDate (clock : Clock) (inputDate : string) : bool :=
  match match_date inputDate with
  | None => false
  | Some (day, month, year) =>
      let date := new_Date (parseInt year) (option_pred (parseInt month)) (parseInt day) in
      let today := valueOf (clock_today clock) in
      let maxDate := setMonth (clock_base clock) (getMonth (clock_month clock) + 3) in
      date_ge date today && date_le date maxDate
  end.

Close Scope Z_scope.

(** The [errorMessage] prop of the date input:
    [dateInput && !validateDate(dateInput) ? 'Data inválida' : undefined]. *)
Definition date_errorMessage (clock : Clock) (dateInput : string) : option string :=
  if negb (String.eqb dateInput "") && negb (validateDate clock dateInput)
  then Some "Data inválida" else None.

(** ** Submitting the appointment form *)

Record AppointmentForm := {
  selectedDoctor : string;
  dateInput : string;
  selectedTime : string;
  description : string;
}.

Record Appointment := {
  doctorId : string;
  appointment_date : option Z;
  appointment_time : string;
  appointment_description : string;
}.

Inductive SubmitOutcome :=
| Alert (message : string)
| Submitted (appointment : Appointment).

(** [const [day, month, year] = dateInput.split('/')]: an element the array
    lacks is [undefined], and [parseInt(undefined)] is NaN. *)
Definition nth_part (parts : list string) (i : nat) : option Z :=
  match parts !! i with
  | Some s => parseInt s
  | None => None
  end.

Definition handleSubmit (clock : Clock) (form : AppointmentForm) : SubmitOutcome :=
  if String.eqb (selectedDoctor form) "" || String.eqb (selectedTime form) ""
     || String.eqb (description form) ""
  then Alert "Por favor, preencha todos os campos"
  else if negb (validateDate clock (dateInput form))
  then Alert "Por favor, insira uma data válida (DD/MM/AAAA)"
  else
    let parts := split_slash (dateInput form) in
    Submitted
      {| doctorId := selectedDoctor form;
         appointment_date :=
           new_Date (nth_part parts 2) (option_pred (nth_part parts 1)) (nth_part parts 0);
         appointment_time := selectedTime form;
         appointment_description := description form |}.

(** Every character of [s] passes the test [p]. *)
Fixpoint string_forall (p : ascii → bool) (s : string) : bool :=
  match s with
  | EmptyString => true
  | String c rest => p c && string_forall p rest
  end.

(** The date of a reading as one writes it into the field, DD/MM/AAAA. *)
Definition two_digits (n : Z) : string := padStart 2 "0" (pretty n).

Definition date_text (r : Reading) : string :=
  two_digits (getDate r) +:+ "/" +:+ two_digits (getMonth r + 1)%Z
  +:+ "/" +:+ padStart 4 "0" (pretty (getFullYear r)).

(** The day number of a reading's date. *)
Definition day_of (r : Reading) : Z :=
  MakeDay (getFullYear r) (getMonth r) (getDate r).

(** ** AppointmentCard *)

(** The colours of [styles/theme.ts] the components below pick from. *)
Module theme.
Definition primary : string := "#4A90E2".
Definition error : string := "#DC3545".
Definition success : string := "#28A745".
End theme.

(** [getStatusColor]: a [switch] on the status with a default branch. *)
Definition getStatusColor (status : string) : string :=
  if String.eqb status "confirmed" then theme.success
  else if String.eqb status "cancelled" then theme.error
  else theme.primary.

(** The text beside the dot, a chain of two conditionals. *)
Definition statusLabel (status : string) : string :=
  if String.eqb status "confirmed" then "Confirmada"
  else if String.eqb status "cancelled" then "Cancelada"
  else "Pendente".

(** ** AppointmentActionModal *)

(** The reason typed into the modal, as its UTF-16 code units. *)
Definition is_white_space (u : N) : bool :=
  ((9 <=? u) && (u <=? 13) || (u =? 32) || (u =? 160) || (u =? 5760)
   || (8192 <=? u) && (u <=? 8202) || (u =? 8232) || (u =? 8233)
   || (u =? 8239) || (u =? 8287) || (u =? 12288) || (u =? 65279))%N.

Fixpoint trimStart (s : list N) : list N :=
  match s with
  | u :: rest => if is_white_space u then trimStart rest else s
  | [] => []
  end.

(** [String.prototype.trim] *)
Definition trim (s : list N) : list N :=
  reverse (trimStart (reverse (trimStart s))).

(** What a handler of the modal does, in order. *)
Inductive ModalEvent :=
| OnConfirm (reason : option (list N))   (* [None] is [undefined] *)
| SetReason (value : list N)
| OnClose.

(** [handleConfirm]: [onConfirm(reason.trim() || undefined)], then the field
    is cleared and the modal closed. *)
Definition handleConfirm (reason : list N) : list ModalEvent :=
  [ OnConfirm (match trim reason with [] => None | t => Some t end);
    SetReason [];
    OnClose ].

Definition handleClose : list ModalEvent := [SetReason []; OnClose].

(** A number written in decimal and padded with zeros to [width] characters
    has exactly that width, only digits, and is read back by [parseInt]. *)
Definition reads_back (width : nat) (n : Z) : bool :=
  let text := padStart width "0" (pretty n) in
  Nat.eqb (String.length text) width
  && string_forall is_digit text
  && bool_decide (parseInt text = Some n).

(** * Properties *)

(** ** Running the actions *)

Ltac run_async :=
  unfold loadStoredUser, loadRegisteredUsers, signIn, register, signOut,
    updateUser, try_finally, try_catch, mbind, Async_bind, await, settle,
    resolve, throw, setUser, setLoading, console_error,
    AsyncStorage.setItem, AsyncStorage.removeItem, AsyncStorage.call;
  cbn [fst snd user loading storage faults console
       with_user with_loading with_storage with_faults with_console].

Lemma signIn_rejected authService credentials e w :
  svc_signIn authService credentials = inl e →
  signIn authService credentials w = (inl e, w).
Proof. intros Hgw. run_async. by rewrite Hgw. Qed.

Lemma register_rejected authService data e w :
  svc_register authService data = inl e →
  register authService data w = (inl e, w).
Proof. intros Hgw. run_async. by rewrite Hgw. Qed.

(** With reliable storage an accepted sign-in sets the user and writes both
    entries. *)
Lemma signIn_accepted authService credentials response w :
  svc_signIn authService credentials = inr response →
  faults w = [] →
  signIn authService credentials w =
    (inr (),
     with_storage
       (<[STORAGE_KEYS.TOKEN := response_token response]>
          (<[STORAGE_KEYS.USER := JSON_stringify (response_user response)]> (storage w)))
       (with_user (Some (response_user response)) w)).
Proof. intros Hgw Hf. run_async. rewrite Hgw. cbn. rewrite Hf. cbn. by rewrite Hf. Qed.

Lemma register_accepted authService data response w :
  svc_register authService data = inr response →
  faults w = [] →
  register authService data w =
    (inr (),
     with_storage
       (<[STORAGE_KEYS.TOKEN := response_token response]>
          (<[STORAGE_KEYS.USER := JSON_stringify (response_user response)]> (storage w)))
       (with_user (Some (response_user response)) w)).
Proof. intros Hgw Hf. run_async. rewrite Hgw. cbn. rewrite Hf. cbn. by rewrite Hf. Qed.

Lemma signOut_rejected authService e w :
  svc_signOut authService = inl e →
  signOut authService w =
    (inr (), with_console (("Erro ao fazer logout:", e) :: console w) w).
Proof. intros Hgw. run_async. by rewrite Hgw. Qed.

Lemma signOut_accepted authService w :
  svc_signOut authService = inr () →
  faults w = [] →
  signOut authService w =
    (inr (),
     with_storage (delete STORAGE_KEYS.TOKEN (delete STORAGE_KEYS.USER (storage w)))
       (with_user None w)).
Proof. intros Hgw Hf. run_async. rewrite Hgw. cbn. rewrite Hf. cbn. by rewrite Hf. Qed.

Lemma updateUser_reliable updatedUser w :
  faults w = [] →
  updateUser updatedUser w =
    (inr (),
     with_storage (<[STORAGE_KEYS.USER := JSON_stringify updatedUser]> (storage w))
       (with_user (Some updatedUser) w)).
Proof. intros Hf. run_async. by rewrite Hf. Qed.

(** Restoring touches neither the storage nor the schedule of its faults. *)
Lemma loadStoredUser_storage authService w :
  storage (snd (loadStoredUser authService w)) = storage w
  ∧ faults (snd (loadStoredUser authService w)) = faults w.
Proof.
  run_async.
  by destruct (svc_getStoredUser authService (storage w)) as [e|[u|]].
Qed.

(** ** The hook *)

(** C10.  [useAuth] never throws its "useAuth must be used within an
    AuthProvider" error: at every call site the context value is an object,
    hence truthy, so the hook returns it; outside any provider what it
    returns is the empty default object. *)
Theorem useAuth_never_throws (site : CallSite) :
  truthy (useContext_AuthContext site) = true
  ∧ useAuth site = inr (useContext_AuthContext site)
  ∧ useAuth OutsideProvider = inr EmptyObject.
Proof. by destruct site. Qed.

(** Outside a provider the navigator therefore renders the public screens
    instead of failing. *)
Example AppNavigator_outside_provider :
  AppNavigator OutsideProvider = inr (RenderNavigator publicScreens).
Proof. reflexivity. Qed.

(** ** The router *)

Lemma router_navigator authService w :
  router authService w = inr (navigator (user w) (loading w)).
Proof. reflexivity. Qed.

Lemma reachable_common : screen_name <$> commonScreens = CommonSet.
Proof. reflexivity. Qed.

Lemma enumerated_role_cases r :
  enumerated_role r = true → r = "admin" ∨ r = "doctor" ∨ r = "patient".
Proof.
  unfold enumerated_role. intros H.
  apply orb_prop in H as [H|H]; [apply orb_prop in H as [H|H]|];
    apply String.eqb_eq in H; auto.
Qed.

Lemma unknown_role_cases r :
  enumerated_role r = false →
  String.eqb r "admin" = false ∧ String.eqb r "doctor" = false
  ∧ String.eqb r "patient" = false.
Proof.
  unfold enumerated_role. intros H.
  apply orb_false_elim in H as [H ?]. apply orb_false_elim in H as [? ?]. auto.
Qed.

(** C8.  While [loading] is true the navigator renders nothing, whatever the
    user is: no route is registered and there is no initial route. *)
Theorem router_booting authService w :
  loading w = true →
  ∃ r, router authService w = inr r
       ∧ r = RenderNull ∧ reachable r = [] ∧ initialRoute r = None.
Proof.
  intros Hl. exists RenderNull. rewrite router_navigator.
  unfold navigator. by rewrite Hl.
Qed.

Lemma router_booting_witness :
  loading (mounted ∅ []) = true
  ∧ ∃ r, router (accepting (sample_user "patient")) (mounted ∅ []) = inr r
         ∧ r = RenderNull ∧ reachable r = [] ∧ initialRoute r = None.
Proof.
  split; [reflexivity|].
  apply (router_booting (accepting (sample_user "patient")) (mounted ∅ [])).
  reflexivity.
Defined.

(** C7.  For a loaded session whose user has one of the roles admin, doctor
    and patient, the registered routes are that role's dashboard followed by
    the six common routes, the navigator opens on the dashboard, and the
    dashboards of the other two roles are not registered. *)
Theorem router_enumerated_role authService w u :
  loading w = false →
  user w = Some u →
  enumerated_role (role u) = true →
  ∃ r, router authService w = inr r
       ∧ reachable r = dashboard (role u) :: CommonSet
       ∧ initialRoute r = Some (dashboard (role u))
       ∧ ∀ other, enumerated_role other = true → other ≠ role u →
                  dashboard other ∉ reachable r.
Proof.
  intros Hl Hu Hrole. eexists. rewrite router_navigator, Hl, Hu.
  split; [reflexivity|]. cbn [navigator reachable initialRoute].
  unfold protectedScreens.
  assert (∀ other, enumerated_role other = true →
            dashboard other ∉ CommonSet) as Hcommon.
  { intros other Ho Hin.
    apply enumerated_role_cases in Ho as [-> | [-> | ->]];
      repeat (apply elem_of_cons in Hin as [Hin|Hin]; [discriminate|]);
      by apply elem_of_nil in Hin. }
  apply enumerated_role_cases in Hrole as [Hr|[Hr|Hr]]; rewrite Hr; cbn;
    (split; [reflexivity|]); (split; [reflexivity|]);
    intros other Ho Hne Hin;
    (apply elem_of_cons in Hin as [Hin|Hin]; [|by apply (Hcommon other Ho)]);
    apply enumerated_role_cases in Ho as [-> | [-> | ->]];
    first [discriminate Hin | by apply Hne].
Qed.

Lemma router_enumerated_role_witness :
  loading (signed_in (sample_user "patient")) = false
  ∧ user (signed_in (sample_user "patient")) = Some (sample_user "patient")
  ∧ enumerated_role (role (sample_user "patient")) = true
  ∧ ∃ r, router (accepting (sample_user "patient")) (signed_in (sample_user "patient")) = inr r
         ∧ reachable r = dashboard (role (sample_user "patient")) :: CommonSet
         ∧ initialRoute r = Some (dashboard (role (sample_user "patient")))
         ∧ ∀ other, enumerated_role other = true →
                    other ≠ role (sample_user "patient") →
                    dashboard other ∉ reachable r.
Proof.
  split; [reflexivity|]. split; [reflexivity|]. split; [reflexivity|].
  apply (router_enumerated_role (accepting (sample_user "patient"))
           (signed_in (sample_user "patient")) (sample_user "patient"));
    reflexivity.
Defined.

(** Scenario: signing in as a patient from the sign-in screen leads to the
    patient's routes, without the administrator's dashboard. *)
Example patient_sign_in_routes :
  let w := snd (signIn (accepting (sample_user "patient")) sample_credentials ready) in
  router (accepting (sample_user "patient")) w
  = inr (RenderNavigator
           ({| screen_name := "PatientDashboard"; component := "PatientDashboardScreen" |}
            :: commonScreens)).
Proof. reflexivity. Qed.

(** C1, as the code has it.  A loaded session whose user's role is none of
    admin, doctor and patient gets exactly the six common routes of every
    signed-in user: no dashboard, neither of the two public routes, and the
    navigator opens on Home. *)
Theorem router_unknown_role authService w u :
  loading w = false →
  user w = Some u →
  enumerated_role (role u) = false →
  ∃ r, router authService w = inr r
       ∧ reachable r = CommonSet
       ∧ initialRoute r = Some "Home".
Proof.
  intros Hl Hu Hrole. eexists. rewrite router_navigator, Hl, Hu.
  split; [reflexivity|]. cbn [navigator reachable initialRoute].
  unfold protectedScreens.
  apply unknown_role_cases in Hrole as (-> & -> & ->). by cbn.
Qed.

Lemma router_unknown_role_witness :
  loading (signed_in (sample_user "nurse")) = false
  ∧ user (signed_in (sample_user "nurse")) = Some (sample_user "nurse")
  ∧ enumerated_role (role (sample_user "nurse")) = false
  ∧ ∃ r, router (accepting (sample_user "nurse")) (signed_in (sample_user "nurse")) = inr r
         ∧ reachable r = CommonSet
         ∧ initialRoute r = Some "Home".
Proof.
  split; [reflexivity|]. split; [reflexivity|]. split; [reflexivity|].
  apply (router_unknown_role (accepting (sample_user "nurse"))
           (signed_in (sample_user "nurse")) (sample_user "nurse"));
    reflexivity.
Defined.

(** C1 as stated fails: a restored user with role nurse is not sent back to
    the public routes; the navigator registers the common routes, Home among
    them, and neither Login nor Register. *)
Lemma nurse_reaches_common_routes :
  enumerated_role (role (sample_user "nurse")) = false
  ∧ ∃ r, router (accepting (sample_user "nurse")) (signed_in (sample_user "nurse")) = inr r
         ∧ reachable r = CommonSet
         ∧ reachable r ≠ UnauthenticatedSet
         ∧ "Home" ∈ reachable r.
Proof.
  split; [reflexivity|]. eexists. split; [reflexivity|].
  split; [reflexivity|]. split; [discriminate|].
  apply elem_of_cons. by left.
Qed.

(** ** Restoring *)

(** C6.  [loadStoredUser] always settles without an error and with
    [loading = false].  When the service hands back a stored user, that user
    becomes the user of the session; when it finds none or fails, the user is
    left as it was (absent, on a freshly mounted provider) and a failure is
    only written to the console. *)
Theorem loadStoredUser_settles authService w :
  ∃ w', loadStoredUser authService w = (inr (), w')
        ∧ loading w' = false
        ∧ storage w' = storage w
        ∧ match svc_getStoredUser authService (storage w) with
          | inr (Some u) => user w' = Some u ∧ console w' = console w
          | inr None => user w' = user w ∧ console w' = console w
          | inl e =>
              user w' = user w
              ∧ console w' = ("Erro ao carregar usuário:", e) :: console w
          end.
Proof.
  run_async.
  destruct (svc_getStoredUser authService (storage w)) as [e|[u|]];
    eexists; (split; [reflexivity|]); cbn; auto.
Qed.

(** Cold start on an empty store: nothing is restored and the router offers
    the two public routes. *)
Example cold_start_empty_store :
  let w := snd (loadStoredUser (accepting (sample_user "patient")) (mounted ∅ [])) in
  loading w = false ∧ user w = None
  ∧ router (accepting (sample_user "patient")) w = inr (RenderNavigator publicScreens).
Proof. by cbn. Qed.

(** Cold start with a service that cannot read the store. *)
Example cold_start_unreadable_store :
  let w := snd (loadStoredUser (rejecting disk_full) (mounted ∅ [])) in
  loading w = false ∧ user w = None.
Proof. by cbn. Qed.

(** ** Signing in and registering *)

(** C5.  When the service rejects the credentials with [e], [signIn] rejects
    with that same [e] and the world (user, stored entries and all the rest)
    is what it was before the call. *)
Theorem signIn_propagates_gateway_error authService credentials e w :
  svc_signIn authService credentials = inl e →
  signIn authService credentials w = (inl e, w).
Proof. apply signIn_rejected. Qed.

Lemma signIn_propagates_gateway_error_witness :
  svc_signIn (rejecting invalid_credentials) sample_credentials = inl invalid_credentials
  ∧ signIn (rejecting invalid_credentials) sample_credentials (signed_in (sample_user "admin"))
    = (inl invalid_credentials, signed_in (sample_user "admin")).
Proof.
  split; [reflexivity|].
  apply (signIn_propagates_gateway_error (rejecting invalid_credentials)
           sample_credentials invalid_credentials (signed_in (sample_user "admin"))).
  reflexivity.
Defined.

(** C9.  On the same answer of the service, [register] is the very state
    transition [signIn] is: an error is propagated unchanged and nothing
    else changes; an accepted registration makes the returned user the user
    of the session and, the storage being reliable, stores the serialised
    user and the token under the two keys. *)
Theorem register_as_signIn authService data credentials w :
  svc_register authService data = svc_signIn authService credentials →
  register authService data w = signIn authService credentials w
  ∧ match svc_register authService data with
    | inl e => register authService data w = (inl e, w)
    | inr response =>
        user (snd (register authService data w)) = Some (response_user response)
        ∧ (faults w = [] →
           register authService data w =
             (inr (),
              with_storage
                (<[STORAGE_KEYS.TOKEN := response_token response]>
                   (<[STORAGE_KEYS.USER := JSON_stringify (response_user response)]>
                      (storage w)))
                (with_user (Some (response_user response)) w)))
    end.
Proof.
  intros Hsame. split.
  - run_async. by rewrite Hsame.
  - destruct (svc_register authService data) as [e|response] eqn:Hgw.
    + by apply register_rejected.
    + split; [|by apply register_accepted].
      run_async. rewrite Hgw. cbn.
      by destruct w as [? ? ? [|[?|] [|[?|] ?]] ?].
Qed.

Lemma register_as_signIn_witness :
  svc_register (accepting (sample_user "patient")) sample_data
  = svc_signIn (accepting (sample_user "patient")) sample_credentials
  ∧ register (accepting (sample_user "patient")) sample_data ready
    = signIn (accepting (sample_user "patient")) sample_credentials ready.
Proof.
  split; [reflexivity|].
  apply (proj1 (register_as_signIn (accepting (sample_user "patient"))
                  sample_data sample_credentials ready eq_refl)).
Defined.

(** ** Signing out *)

(** C2, as the code has it.  [signOut] never rejects.  If the service's
    sign-out is rejected, the user and the stored entries stay as they were
    and the error is written to the console.  If it succeeds, the user is
    cleared and the two entries are removed in turn, identity first, up to
    the first removal the storage rejects. *)
Theorem signOut_effect authService w :
  ∃ w', signOut authService w = (inr (), w')
        ∧ match svc_signOut authService with
          | inl e =>
              w' = with_console (("Erro ao fazer logout:", e) :: console w) w
          | inr _ =>
              user w' = None
              ∧ storage w' =
                  match faults w with
                  | Some _ :: _ => storage w
                  | None :: Some _ :: _ => delete STORAGE_KEYS.USER (storage w)
                  | _ => delete STORAGE_KEYS.TOKEN (delete STORAGE_KEYS.USER (storage w))
                  end
          end.
Proof.
  destruct w as [u l s f c]. run_async.
  destruct (svc_signOut authService) as [e|[]]; [by eexists|].
  destruct f as [|[?|] [|[?|] ?]]; by eexists.
Qed.

(** C2 as stated fails: when the service's sign-out is rejected, the signed-in
    user stays in memory and both entries stay in the store. *)
Lemma signOut_rejected_keeps_session :
  svc_signOut (rejecting network_down) = inl network_down
  ∧ fst (signOut (rejecting network_down) (signed_in (sample_user "patient"))) = inr ()
  ∧ user (snd (signOut (rejecting network_down) (signed_in (sample_user "patient"))))
    = Some (sample_user "patient")
  ∧ storage (snd (signOut (rejecting network_down) (signed_in (sample_user "patient"))))
    = storage (signed_in (sample_user "patient"))
  ∧ storage (signed_in (sample_user "patient")) !! STORAGE_KEYS.USER
    = Some (JSON_stringify (sample_user "patient"))
  ∧ storage (signed_in (sample_user "patient")) !! STORAGE_KEYS.TOKEN = Some "t1".
Proof. repeat split; vm_compute; reflexivity. Qed.

(** Signing out of a session that is already signed out changes nothing and
    does not fail. *)
Example signOut_twice :
  signOut (accepting (sample_user "patient")) ready = (inr (), ready).
Proof.
  rewrite signOut_accepted by reflexivity.
  unfold with_storage, with_user, ready; cbn. by rewrite !delete_empty.
Qed.

(** ** Updating the user *)

(** C3, as the code has it.  [updateUser] compares neither role nor id with
    the current user: whatever the argument, it becomes the user of the
    session.  The call rejects only when the storage rejects the write, with
    the storage's own error and the stored entries untouched; otherwise it
    resolves with the serialised argument stored under the identity key. *)
Theorem updateUser_effect updatedUser w :
  ∃ w', updateUser updatedUser w =
          (match faults w with Some e :: _ => inl e | _ => inr () end, w')
        ∧ user w' = Some updatedUser
        ∧ storage w' =
            match faults w with
            | Some _ :: _ => storage w
            | _ => <[STORAGE_KEYS.USER := JSON_stringify updatedUser]> (storage w)
            end.
Proof.
  destruct w as [u l s f c]. run_async.
  destruct f as [|[?|] ?]; by eexists.
Qed.

(** C3 as stated fails: an administrator's session accepts an update that
    turns the user into a doctor with another id; the call resolves, and both
    the user in memory and the stored identity are the new ones. *)
Lemma updateUser_accepts_role_change :
  let current := sample_user "admin" in
  let updated :=
    {| id := "u2"; name := "Ana"; email := "ana@example.com";
       role := "doctor"; image := "" |} in
  user (signed_in current) = Some current
  ∧ role updated ≠ role current
  ∧ id updated ≠ id current
  ∧ fst (updateUser updated (signed_in current)) = inr ()
  ∧ user (snd (updateUser updated (signed_in current))) = Some updated
  ∧ storage (snd (updateUser updated (signed_in current))) !! STORAGE_KEYS.USER
    = Some (JSON_stringify updated).
Proof. repeat split; try discriminate; vm_compute; reflexivity. Qed.

(** ** Pairing of the two stored entries *)

Lemma storage_keys_distinct : STORAGE_KEYS.USER ≠ STORAGE_KEYS.TOKEN.
Proof. discriminate. Qed.

Lemma paired_spec (s : gmap string string) :
  paired s = true
  ↔ (is_Some (s !! STORAGE_KEYS.USER) ↔ is_Some (s !! STORAGE_KEYS.TOKEN)).
Proof.
  unfold paired. rewrite Bool.eqb_true_iff.
  split.
  - intros H. split; intros Hx; apply (bool_decide_unpack _);
      [rewrite <- H | rewrite H]; by apply bool_decide_pack.
  - intros H. by apply bool_decide_ext.
Qed.

Lemma paired_written (s : gmap string string) v t :
  paired (<[STORAGE_KEYS.TOKEN := t]> (<[STORAGE_KEYS.USER := v]> s)) = true.
Proof.
  apply paired_spec.
  rewrite lookup_insert_ne by (symmetry; apply storage_keys_distinct).
  rewrite !lookup_insert_eq. split; eauto.
Qed.

Lemma paired_removed (s : gmap string string) :
  paired (delete STORAGE_KEYS.TOKEN (delete STORAGE_KEYS.USER s)) = true.
Proof.
  apply paired_spec.
  rewrite lookup_delete_ne by (symmetry; apply storage_keys_distinct).
  rewrite !lookup_delete_eq. split; intros [? ?]; discriminate.
Qed.

Lemma paired_rewritten (s : gmap string string) v :
  is_Some (s !! STORAGE_KEYS.USER) →
  paired s = true →
  paired (<[STORAGE_KEYS.USER := v]> s) = true.
Proof.
  intros Hu Hp. apply paired_spec. apply paired_spec in Hp.
  rewrite lookup_insert_eq.
  rewrite lookup_insert_ne by apply storage_keys_distinct.
  split; [intros _; by apply Hp | eauto].
Qed.

(** One call over reliable storage keeps the storage reliable and the entries
    paired, an update being issued on a stored identity. *)
Lemma perform_keeps_pairing authService op w :
  faults w = [] →
  paired (storage w) = true →
  updates_on_stored authService [op] w = true →
  faults (snd (perform authService op w)) = []
  ∧ paired (storage (snd (perform authService op w))) = true.
Proof.
  intros Hf Hp Hup. destruct op as [|c|d| |u]; cbn [perform].
  - destruct (loadStoredUser_storage authService w) as [-> ->]. auto.
  - destruct (svc_signIn authService c) as [e|response] eqn:Hgw.
    + by rewrite (signIn_rejected _ _ _ _ Hgw).
    + rewrite (signIn_accepted _ _ _ _ Hgw Hf). cbn. auto using paired_written.
  - destruct (svc_register authService d) as [e|response] eqn:Hgw.
    + by rewrite (register_rejected _ _ _ _ Hgw).
    + rewrite (register_accepted _ _ _ _ Hgw Hf). cbn. auto using paired_written.
  - destruct (svc_signOut authService) as [e|[]] eqn:Hgw.
    + by rewrite (signOut_rejected _ _ _ Hgw).
    + rewrite (signOut_accepted _ _ Hgw Hf). cbn. auto using paired_removed.
  - rewrite (updateUser_reliable _ _ Hf). cbn. split; [done|].
    apply paired_rewritten; [|done].
    cbn in Hup. rewrite andb_true_r in Hup. by apply bool_decide_eq_true in Hup.
Qed.

(** C4, as the code has it.  Over a store whose writes and removals all
    succeed and whose two entries start out paired, and with every
    [updateUser] issued while an identity entry is stored, the identity entry
    is stored exactly when the token entry is after each completed call of any
    sequence of restore, sign-in, registration, sign-out and update. *)
Theorem pairing_after_each_call authService ops w :
  faults w = [] →
  paired (storage w) = true →
  updates_on_stored authService ops w = true →
  Forall (λ w', paired (storage w') = true) (observations authService ops w).
Proof.
  revert w. induction ops as [|op rest IH]; intros w Hf Hp Hup; [constructor|].
  cbn [observations]. cbn [updates_on_stored] in Hup.
  apply andb_true_iff in Hup as [Hop Hrest].
  destruct (perform_keeps_pairing authService op w Hf Hp) as [Hf' Hp'].
  { cbn [updates_on_stored]. by rewrite Hop. }
  constructor; [done|]. by apply IH.
Qed.

Lemma pairing_after_each_call_witness :
  let authService := accepting (sample_user "patient") in
  let ops :=
    [OpRestore; OpSignIn sample_credentials; OpUpdateUser (sample_user "patient");
     OpSignOut; OpRegister sample_data] in
  faults (mounted ∅ []) = []
  ∧ paired (storage (mounted ∅ [])) = true
  ∧ updates_on_stored authService ops (mounted ∅ []) = true
  ∧ Forall (λ w', paired (storage w') = true)
           (observations authService ops (mounted ∅ [])).
Proof.
  cbv zeta.
  split; [reflexivity|]. split; [vm_compute; reflexivity|].
  split; [vm_compute; reflexivity|].
  apply (pairing_after_each_call (accepting (sample_user "patient"))
           [OpRestore; OpSignIn sample_credentials;
            OpUpdateUser (sample_user "patient"); OpSignOut; OpRegister sample_data]
           (mounted ∅ [])); vm_compute; reflexivity.
Defined.

(** C4 as stated fails: when the storage accepts the identity and rejects the
    token, the sign-in leaves the identity entry stored without a token
    entry, and that is what the caller finds once the call has settled. *)
Lemma rejected_token_write_splits_pair :
  let authService := accepting (sample_user "patient") in
  let obs :=
    observations authService [OpRestore; OpSignIn sample_credentials]
      (mounted ∅ [None; Some disk_full]) in
  (λ w', (storage w' !! STORAGE_KEYS.USER, storage w' !! STORAGE_KEYS.TOKEN)) <$> obs
  = [(None, None); (Some (JSON_stringify (sample_user "patient")), None)]
  ∧ (λ w', paired (storage w')) <$> obs = [true; false]
  ∧ fst (signIn authService sample_credentials (mounted ∅ [None; Some disk_full]))
    = inl disk_full.
Proof. cbv zeta. repeat split; vm_compute; reflexivity. Qed.

(** The same split needs no failing storage: an update issued on a session
    that holds nothing in the store writes the identity entry alone. *)
Example update_without_stored_identity :
  let obs :=
    observations (accepting (sample_user "patient"))
      [OpRestore; OpUpdateUser (sample_user "patient")] (mounted ∅ []) in
  (λ w', paired (storage w')) <$> obs = [true; false].
Proof. vm_compute. reflexivity. Qed.

(** A removal rejected half-way through a sign-out leaves the token entry
    behind. *)
Example rejected_token_removal_splits_pair :
  let w := snd (signOut (accepting (sample_user "patient"))
                  (with_faults [None; Some disk_full] (signed_in (sample_user "patient")))) in
  user w = None
  ∧ storage w !! STORAGE_KEYS.USER = None
  ∧ storage w !! STORAGE_KEYS.TOKEN = Some "t1".
Proof. cbv zeta. repeat split; vm_compute; reflexivity. Qed.

(** * Further properties *)

(** ** The session over sequences of calls *)

Lemma perform_keeps_loaded authService op w :
  loading w = false → loading (snd (perform authService op w)) = false.
Proof.
  destruct w as [u l s f c]. cbn. intros ->.
  destruct op as [|cr|d| |up]; cbn [perform]; run_async.
  - by destruct (svc_getStoredUser authService s) as [e|[?|]].
  - destruct (svc_signIn authService cr) as [e|r]; [done|].
    by destruct f as [|[?|] [|[?|] ?]].
  - destruct (svc_register authService d) as [e|r]; [done|].
    by destruct f as [|[?|] [|[?|] ?]].
  - destruct (svc_signOut authService) as [e|[]]; [done|].
    by destruct f as [|[?|] [|[?|] ?]].
  - by destruct f as [|[?|] ?].
Qed.

Lemma observations_keep_loaded authService ops w :
  loading w = false →
  Forall (λ w', loading w' = false) (observations authService ops w).
Proof.
  revert w. induction ops as [|op rest IH]; intros w Hl; [constructor|].
  cbn [observations]. constructor; [|apply IH]; by apply perform_keeps_loaded.
Qed.

(** X1.  Once [loadStoredUser] has run, [loading] is false and no later call
    of the session manager, accepted or rejected, over reliable or failing
    storage, ever sets it back to true: the navigator never returns to its
    blank state. *)
Theorem loading_never_returns authService ops w :
  Forall (λ w', loading w' = false)
         (observations authService (OpRestore :: ops) w).
Proof.
  cbn [observations perform].
  assert (loading (snd (loadStoredUser authService w)) = false) as Hl.
  { run_async. by destruct (svc_getStoredUser authService (storage w)) as [e|[?|]]. }
  constructor; [done|]. by apply observations_keep_loaded.
Qed.

Lemma perform_frame authService op w (k : string) :
  k ≠ STORAGE_KEYS.USER → k ≠ STORAGE_KEYS.TOKEN →
  storage (snd (perform authService op w)) !! k = storage w !! k.
Proof.
  intros Hu Ht. destruct w as [u l s f c].
  destruct op as [|cr|d| |up]; cbn [perform]; run_async.
  - by destruct (svc_getStoredUser authService s) as [e|[?|]].
  - destruct (svc_signIn authService cr) as [e|r]; [done|].
    destruct f as [|[?|] [|[?|] ?]]; cbn;
      by rewrite ?lookup_insert_ne by done.
  - destruct (svc_register authService d) as [e|r]; [done|].
    destruct f as [|[?|] [|[?|] ?]]; cbn;
      by rewrite ?lookup_insert_ne by done.
  - destruct (svc_signOut authService) as [e|[]]; [done|].
    destruct f as [|[?|] [|[?|] ?]]; cbn;
      by rewrite ?lookup_delete_ne by done.
  - destruct f as [|[?|] ?]; cbn; by rewrite ?lookup_insert_ne by done.
Qed.

(** X2.  The session manager owns two storage keys and nothing else: over any
    sequence of its calls, whatever the service answers and whichever storage
    calls fail, every entry under another key is what it was at the start. *)
Theorem other_entries_untouched authService ops w (k : string) :
  k ≠ STORAGE_KEYS.USER → k ≠ STORAGE_KEYS.TOKEN →
  Forall (λ w', storage w' !! k = storage w !! k)
         (observations authService ops w).
Proof.
  intros Hu Ht. revert w. induction ops as [|op rest IH]; intros w; [constructor|].
  cbn [observations]. constructor; [by apply perform_frame|].
  eapply Forall_impl; [apply IH|]. cbn. intros w' ->. by apply perform_frame.
Qed.

Lemma other_entries_untouched_witness :
  let w := with_storage (<["consultas" := "[]"]> ∅) (mounted ∅ [Some disk_full; None]) in
  "consultas" ≠ STORAGE_KEYS.USER
  ∧ "consultas" ≠ STORAGE_KEYS.TOKEN
  ∧ Forall (λ w', storage w' !! "consultas" = storage w !! "consultas")
      (observations (accepting (sample_user "doctor"))
         [OpRestore; OpSignIn sample_credentials; OpSignOut] w).
Proof.
  cbv zeta. split; [discriminate|]. split; [discriminate|].
  apply (other_entries_untouched (accepting (sample_user "doctor"))
           [OpRestore; OpSignIn sample_credentials; OpSignOut]
           (with_storage (<["consultas" := "[]"]> ∅) (mounted ∅ [Some disk_full; None]))
           "consultas"); discriminate.
Defined.

(** ** Signing in over failing storage *)

(** X3.  [signIn] sets the user before it writes anything: when the service
    accepts and the storage rejects the first or the second write with [e],
    the call rejects with [e] and no token entry is written, yet the user of
    the session is already the one the service returned. *)
Theorem signIn_storage_rejection authService credentials response e w :
  svc_signIn authService credentials = inr response →
  (faults w !! 0 = Some (Some e)
   ∨ (faults w !! 0 = Some None ∧ faults w !! 1 = Some (Some e))) →
  fst (signIn authService credentials w) = inl e
  ∧ user (snd (signIn authService credentials w)) = Some (response_user response)
  ∧ storage (snd (signIn authService credentials w)) !! STORAGE_KEYS.TOKEN
    = storage w !! STORAGE_KEYS.TOKEN.
Proof.
  intros Hgw Hf. destruct w as [u l s f c]. run_async. rewrite Hgw. cbn in *.
  destruct Hf as [Hf|[Hf1 Hf2]].
  - destruct f as [|[?|] ?]; simplify_eq/=. done.
  - destruct f as [|[?|] [|[?|] ?]]; simplify_eq/=.
    by rewrite lookup_insert_ne by apply storage_keys_distinct.
Qed.

Lemma signIn_storage_rejection_witness :
  let authService := accepting (sample_user "patient") in
  let w := with_faults [None; Some disk_full] ready in
  svc_signIn authService sample_credentials
  = inr {| response_user := sample_user "patient"; response_token := "t1" |}
  ∧ (faults w !! 0 = Some (Some disk_full)
     ∨ (faults w !! 0 = Some None ∧ faults w !! 1 = Some (Some disk_full)))
  ∧ fst (signIn authService sample_credentials w) = inl disk_full
  ∧ user (snd (signIn authService sample_credentials w)) = Some (sample_user "patient")
  ∧ storage (snd (signIn authService sample_credentials w)) !! STORAGE_KEYS.TOKEN
    = storage w !! STORAGE_KEYS.TOKEN.
Proof.
  cbv zeta. split; [reflexivity|]. split; [right; split; reflexivity|].
  apply (signIn_storage_rejection (accepting (sample_user "patient"))
           sample_credentials
           {| response_user := sample_user "patient"; response_token := "t1" |}
           disk_full (with_faults [None; Some disk_full] ready));
    [reflexivity | right; split; reflexivity].
Defined.

(** ** Signing in and out again *)

(** X4.  Over reliable storage that holds neither entry, an accepted sign-in
    followed by an accepted sign-out is a round trip: the user is absent
    again and the storage is exactly what it was, entry for entry. *)
Theorem signIn_signOut_round_trip authService credentials response w :
  svc_signIn authService credentials = inr response →
  svc_signOut authService = inr () →
  faults w = [] →
  storage w !! STORAGE_KEYS.USER = None →
  storage w !! STORAGE_KEYS.TOKEN = None →
  snd (signOut authService (snd (signIn authService credentials w)))
  = with_user None w.
Proof.
  intros Hin Hout Hf Hu Ht.
  rewrite (signIn_accepted _ _ _ _ Hin Hf). cbn [snd].
  rewrite (signOut_accepted _ _ Hout) by done. cbn [snd].
  destruct w as [u l s f c]. unfold with_storage, with_user. cbn in *. f_equal.
  apply map_eq. intros k.
  destruct (decide (k = STORAGE_KEYS.TOKEN)) as [->|Hk];
    [by rewrite lookup_delete_eq|].
  rewrite lookup_delete_ne by done.
  destruct (decide (k = STORAGE_KEYS.USER)) as [->|Hk'];
    [by rewrite lookup_delete_eq|].
  by rewrite lookup_delete_ne, !lookup_insert_ne by done.
Qed.

Lemma signIn_signOut_round_trip_witness :
  let authService := accepting (sample_user "patient") in
  svc_signIn authService sample_credentials
  = inr {| response_user := sample_user "patient"; response_token := "t1" |}
  ∧ svc_signOut authService = inr ()
  ∧ faults ready = []
  ∧ storage ready !! STORAGE_KEYS.USER = None
  ∧ storage ready !! STORAGE_KEYS.TOKEN = None
  ∧ snd (signOut authService (snd (signIn authService sample_credentials ready)))
    = with_user None ready.
Proof.
  cbv zeta. repeat (split; [reflexivity|]).
  apply (signIn_signOut_round_trip (accepting (sample_user "patient"))
           sample_credentials
           {| response_user := sample_user "patient"; response_token := "t1" |}
           ready); reflexivity.
Defined.

(** ** The mount effect *)

(** X5.  The mount effect never rejects and does not depend on which of its
    two loads the service answers first: either way [loading] ends false, the
    user and the storage are the same, and the console holds the same
    messages up to their order. *)
Theorem onMount_order_irrelevant authService w :
  ∃ w1 w2,
    onMount authService StoredUserFirst w = (inr (), w1)
    ∧ onMount authService RegisteredUsersFirst w = (inr (), w2)
    ∧ loading w1 = false ∧ loading w2 = false
    ∧ user w1 = user w2
    ∧ storage w1 = storage w ∧ storage w2 = storage w
    ∧ faults w1 = faults w ∧ faults w2 = faults w
    ∧ console w1 ≡ₚ console w2.
Proof.
  destruct w as [u l s f c]. unfold onMount, detached. run_async.
  destruct (svc_loadRegisteredUsers authService) as [e'|[]]; cbn;
    destruct (svc_getStoredUser authService s) as [e|[?|]]; cbn;
    do 2 eexists; repeat (split; [reflexivity|]); try reflexivity.
  apply Permutation_swap.
Qed.

(** ** The navigator at every call site *)

Ltac decide_closed := apply (bool_decide_unpack _); vm_compute; reflexivity.

Lemma protected_routes_distinct u :
  NoDup (screen_name <$> protectedScreens u)
  ∧ Forall (λ a, a ∉ UnauthenticatedSet) (screen_name <$> protectedScreens u).
Proof.
  unfold protectedScreens.
  destruct (String.eqb (role u) "admin"), (String.eqb (role u) "doctor"),
    (String.eqb (role u) "patient"); cbn; split; decide_closed.
Qed.

(** X6.  Wherever it is rendered, inside a provider in any state or outside
    one, [AppNavigator] does not throw, registers no route name twice, and
    never registers a public route next to a protected one: if one of Login
    and Register is registered, every registered route is one of these two. *)
Theorem AppNavigator_routes_consistent (site : CallSite) :
  ∃ r, AppNavigator site = inr r
       ∧ NoDup (reachable r)
       ∧ ∀ a b, a ∈ reachable r → b ∈ reachable r →
                a ∈ UnauthenticatedSet → b ∈ UnauthenticatedSet.
Proof.
  assert (∀ user loading,
            NoDup (reachable (navigator user loading))
            ∧ ∀ a b, a ∈ reachable (navigator user loading) →
                     b ∈ reachable (navigator user loading) →
                     a ∈ UnauthenticatedSet → b ∈ UnauthenticatedSet) as Hnav.
  { intros [u|] [|]; cbn; try (split; [constructor|]; by intros a b Ha%elem_of_nil).
    - destruct (protected_routes_distinct u) as [Hnd Hpriv]. split; [done|].
      intros a b Ha _ Hpub. rewrite Forall_forall in Hpriv. by destruct (Hpriv a Ha).
    - split; [decide_closed|]. by intros a b _ Hb _. }
  destruct site as [|authService w]; eexists; (split; [reflexivity|]); apply Hnav.
Qed.

(** X7.  Every route of the [AppRoutes] stack is registered by [AppNavigator],
    with the same component, for every loaded session that has a user,
    whatever that user's role. *)
Theorem AppRoutes_within_navigator authService w u :
  loading w = false →
  user w = Some u →
  ∃ screens, router authService w = inr (RenderNavigator screens)
             ∧ ∀ s, s ∈ AppRoutes → s ∈ screens.
Proof.
  intros Hl Hu. eexists. rewrite router_navigator, Hl, Hu. split; [reflexivity|].
  intros s Hs. unfold protectedScreens.
  rewrite !elem_of_app. do 3 right.
  revert s Hs. apply Forall_forall. decide_closed.
Qed.

Lemma AppRoutes_within_navigator_witness :
  loading (signed_in (sample_user "nurse")) = false
  ∧ user (signed_in (sample_user "nurse")) = Some (sample_user "nurse")
  ∧ ∃ screens,
      router (accepting (sample_user "nurse")) (signed_in (sample_user "nurse"))
      = inr (RenderNavigator screens)
      ∧ ∀ s, s ∈ AppRoutes → s ∈ screens.
Proof.
  split; [reflexivity|]. split; [reflexivity|].
  apply (AppRoutes_within_navigator (accepting (sample_user "nurse"))
           (signed_in (sample_user "nurse")) (sample_user "nurse")); reflexivity.
Defined.

(** ** The header and its bell *)

(** X8.  The header does not throw at any call site and shows its bar exactly
    when the context holds a user (never outside a provider); the bar carries
    that user's name and avatar, and in a loaded session the route its bell
    navigates to is one the navigator has registered, whatever the user's
    role. *)
Theorem Header_bar_and_bell (site : CallSite) :
  ∃ h, Header site = inr h
       ∧ match site, h with
         | InsideProvider authService w, Some bar =>
             ∃ u, user w = Some u
                  ∧ user_name bar = name u ∧ avatar_uri bar = image u
                  ∧ (loading w = false →
                     ∃ r, router authService w = inr r
                          ∧ bell_target bar ∈ reachable r)
         | InsideProvider authService w, None => user w = None
         | OutsideProvider, _ => h = None
         end.
Proof.
  destruct site as [|authService w]; [by eexists|].
  unfold Header. cbn -[router]. destruct (user w) as [u|] eqn:Hu; eexists;
    (split; [reflexivity|]); [|done].
  exists u. repeat (split; [reflexivity|]). intros Hl. eexists.
  rewrite router_navigator, Hl, Hu. split; [reflexivity|]. cbn.
  unfold protectedScreens. rewrite !fmap_app, !elem_of_app. do 3 right.
  decide_closed.
Qed.

(** ** The bell's counter *)

Lemma loadUnreadCount_requests notificationService user b :
  fst (loadUnreadCount notificationService user b) = inr ()
  ∧ (Forall (λ i, i ≠ "") (requested b) →
     Forall (λ i, i ≠ "") (requested (snd (loadUnreadCount notificationService user b))))
  ∧ (no_user_id user = true → snd (loadUnreadCount notificationService user b) = b).
Proof.
  unfold loadUnreadCount. destruct user as [u|]; cbn; [|done].
  destruct (String.eqb_spec (id u) "") as [Hid|Hid]; [done|].
  destruct (svc_getUnreadCount notificationService (id u)); cbn;
    (split; [done|]); (split; [|done]); intros Hreq; by constructor.
Qed.

(** X9.  Over any run of refreshes, with any users and any answers of the
    service, the bell never asks the service about an empty user id, and
    refreshes made without a user, or with a user whose id is empty, leave
    the bell exactly as it was. *)
Theorem bell_never_asks_without_id
    (events : list (NotificationService * option User)) (b : Bell) :
  (Forall (λ i, i ≠ "") (requested b) →
   Forall (λ i, i ≠ "") (requested (refreshes events b)))
  ∧ (Forall (λ ev, no_user_id ev.2 = true) events → refreshes events b = b).
Proof.
  revert b. induction events as [|[svc user] rest IH]; intros b; [done|].
  cbn [refreshes].
  destruct (loadUnreadCount_requests svc user b) as (_ & Hreq & Hskip).
  destruct (IH (snd (loadUnreadCount svc user b))) as [IH1 IH2].
  split.
  - intros Hb. by apply IH1, Hreq.
  - intros Hev. inversion Hev as [|? ? Hhd Htl]; subst. cbn in Hhd.
    rewrite (Hskip Hhd) in IH2 |- *. by apply IH2.
Qed.

(** A failed refresh keeps the last count the service gave. *)
Example failed_refresh_keeps_count :
  let up := {| svc_getUnreadCount := λ _, inr 7%Z |} in
  let down := {| svc_getUnreadCount := λ _, inl network_down |} in
  let b := refreshes [(up, Some (sample_user "patient"));
                      (down, Some (sample_user "patient"))] Bell_initial in
  unreadCount b = 7%Z ∧ Badge_value (unreadCount b) = Some "7"
  ∧ List.length (bell_console b) = 1.
Proof. cbv zeta. repeat split; vm_compute; reflexivity. Qed.

Lemma toString_two_digits (n : Z) :
  (0 < n ≤ 99)%Z → (String.length (toString n) ≤ 2)%nat.
Proof.
  intros Hn.
  assert (Forall (λ k, (String.length (toString k) ≤ 2)%nat) (seqZ 1 99)) as Hall
    by decide_closed.
  rewrite Forall_forall in Hall. apply Hall, elem_of_seqZ. lia.
Qed.

(** X10.  The badge is absent exactly when the count is zero or negative;
    when present its text is never longer than three characters: the count
    in decimal up to 99 and [99+] above. *)
Theorem Badge_value_bounded (unreadCount : Z) :
  match Badge_value unreadCount with
  | None => (unreadCount ≤ 0)%Z
  | Some text =>
      (0 < unreadCount)%Z
      ∧ (String.length text ≤ 3)%nat
      ∧ text = (if bool_decide (unreadCount ≤ 99)%Z
                then toString unreadCount else "99+")
  end.
Proof.
  unfold Badge_value.
  destruct (Z.ltb_spec 0 unreadCount) as [Hpos|Hle]; [|done].
  split; [done|].
  destruct (Z.ltb_spec 99 unreadCount) as [Hbig|Hsmall].
  - rewrite bool_decide_eq_false_2 by lia. split; [cbn; lia | done].
  - rewrite bool_decide_eq_true_2 by lia. split; [|done].
    pose proof (toString_two_digits unreadCount). lia.
Qed.

(** ** The grid of time slots *)

Lemma selected_count (l : list string) (selectedTime : option string) :
  NoDup l →
  List.length
    (List.filter (λ time, bool_decide (selectedTime = Some time)) l)
  = match selectedTime with
    | Some t => if bool_decide (t ∈ l) then 1 else 0
    | None => 0
    end.
Proof.
  induction 1 as [|x l Hx Hnd IH]; cbn.
  { destruct selectedTime; [by rewrite bool_decide_eq_false_2 by apply not_elem_of_nil|done]. }
  destruct selectedTime as [t|]; cbn in *.
  - destruct (decide (t = x)) as [->|Hne].
    + rewrite bool_decide_eq_true_2 by done. cbn. rewrite IH.
      rewrite (bool_decide_eq_false_2 (x ∈ l)) by done.
      by rewrite bool_decide_eq_true_2 by (apply elem_of_cons; by left).
    + rewrite bool_decide_eq_false_2 by congruence. rewrite IH.
      apply (f_equal (λ b : bool, if b then 1 else 0)).
      apply bool_decide_ext. rewrite elem_of_cons.
      split; [by right | by intros [?|?]].
  - by rewrite bool_decide_eq_false_2 by done.
Qed.

Lemma generateTimeSlots_NoDup : NoDup generateTimeSlots.
Proof. decide_closed. Qed.

(** X11.  Whatever [selectedTime] is, the grid has eighteen cards with
    pairwise distinct keys, pressing a card reports that card's own slot,
    and at most one card is drawn selected: exactly one when [selectedTime]
    is one of the slots, none when it is absent or anything else. *)
Theorem TimeSlotList_selection (selectedTime : option string) :
  List.length (TimeSlotList selectedTime) = 18
  ∧ NoDup (card_key <$> TimeSlotList selectedTime)
  ∧ Forall (λ c, card_onPress c = card_key c ∧ card_key c ∈ generateTimeSlots)
           (TimeSlotList selectedTime)
  ∧ List.length (List.filter card_isSelected (TimeSlotList selectedTime))
    = match selectedTime with
      | Some t => if bool_decide (t ∈ generateTimeSlots) then 1 else 0
      | None => 0
      end.
Proof.
  unfold TimeSlotList. split; [by rewrite length_fmap|].
  split.
  { rewrite <- list_fmap_compose.
    replace (_ <$> generateTimeSlots) with generateTimeSlots by reflexivity.
    apply generateTimeSlots_NoDup. }
  split.
  { apply Forall_fmap, Forall_forall. by intros t Ht. }
  rewrite <- (selected_count _ _ generateTimeSlots_NoDup).
  generalize generateTimeSlots. intros l.
  induction l as [|x l IH]; [done|]. cbn. destruct (bool_decide _); cbn; by rewrite IH.
Qed.

(** ** Typing a date *)

Lemma remove_non_digits_all_digits text :
  string_forall is_digit (remove_non_digits text) = true.
Proof.
  induction text as [|c rest IH]; [done|]. cbn.
  destruct (is_digit c) eqn:Hc; [|done]. cbn. by rewrite Hc.
Qed.

Lemma slash_is_no_digit : is_digit "/" = false.
Proof. reflexivity. Qed.

Ltac digits_of H :=
  cbn [string_forall] in H;
  repeat (let Hc := fresh "Hc" in apply andb_prop in H as [Hc H]).

Ltac use_digits :=
  repeat (progress
            (cbv beta iota zeta delta
               [handleDateChange remove_non_digits slice slice_from substring
                String.length String.append Nat.leb Nat.ltb Nat.sub
                string_forall match_date andb orb negb Ascii.eqb Bool.eqb];
             rewrite ?slash_is_no_digit;
             repeat match goal with
                    | Hc : is_digit ?c = true |- context [is_digit ?c] => rewrite Hc
                    end)).

(** X12.  Whatever is typed or pasted into the date field, what the field
    then holds has at most ten characters, all of them digits or slashes;
    its digits are the first eight digits of the text, in order; and feeding
    it back through the formatter leaves it as it is. *)
Theorem handleDateChange_shape (text : string) :
  (String.length (handleDateChange text) ≤ 10)%nat
  ∧ string_forall (λ c, is_digit c || Ascii.eqb c "/") (handleDateChange text) = true
  ∧ remove_non_digits (handleDateChange text)
    = substring 0 8 (remove_non_digits text)
  ∧ handleDateChange (handleDateChange text) = handleDateChange text.
Proof.
  pose proof (remove_non_digits_all_digits text) as Hd.
  unfold handleDateChange. revert Hd.
  generalize (remove_non_digits text). intros numbers Hd.
  destruct numbers
    as [|c1 [|c2 [|c3 [|c4 [|c5 [|c6 [|c7 [|c8 [|c9 rest]]]]]]]]];
    digits_of Hd; use_digits; repeat split; cbn; try lia.
Qed.

Lemma formatted_date_matches_aux (text : string) :
  match_date (handleDateChange text)
  = if Nat.leb 8 (String.length (remove_non_digits text))
    then Some (slice (remove_non_digits text) 0 2,
               slice (remove_non_digits text) 2 4,
               slice (remove_non_digits text) 4 8)
    else None.
Proof.
  pose proof (remove_non_digits_all_digits text) as Hd.
  unfold handleDateChange. revert Hd.
  generalize (remove_non_digits text). intros numbers Hd.
  destruct numbers
    as [|c1 [|c2 [|c3 [|c4 [|c5 [|c6 [|c7 [|c8 [|c9 rest]]]]]]]]];
    digits_of Hd; use_digits; reflexivity.
Qed.

(** X13.  What the formatter leaves in the field has the shape the validator
    asks for, two digits, a slash, two digits, a slash, four digits, exactly
    when at least eight digits have been typed; the three groups are then the
    digits 1-2, 3-4 and 5-8 of the text. *)
Theorem formatted_date_matches (text : string) :
  match_date (handleDateChange text)
  = if Nat.leb 8 (String.length (remove_non_digits text))
    then Some (slice (remove_non_digits text) 0 2,
               slice (remove_non_digits text) 2 4,
               slice (remove_non_digits text) 4 8)
    else None.
Proof. apply formatted_date_matches_aux. Qed.

Lemma validateDate_needs_shape clock inputDate :
  match_date inputDate = None → validateDate clock inputDate = false.
Proof. unfold validateDate. by intros ->. Qed.

(** X14.  While fewer than eight digits have been typed the field can never
    validate, whatever the clock says: with one to seven digits the error
    text is shown, and with none the field is empty and no error is shown. *)
Theorem partial_date_is_flagged clock (text : string) :
  (String.length (remove_non_digits text) < 8)%nat →
  validateDate clock (handleDateChange text) = false
  ∧ date_errorMessage clock (handleDateChange text)
    = if Nat.ltb 0 (String.length (remove_non_digits text))
      then Some "Data inválida" else None.
Proof.
  intros Hlen.
  assert (validateDate clock (handleDateChange text) = false) as Hv.
  { apply validateDate_needs_shape. rewrite formatted_date_matches_aux.
    by rewrite (proj2 (Nat.leb_gt _ _)). }
  split; [done|]. unfold date_errorMessage. rewrite Hv.
  unfold handleDateChange.
  destruct (remove_non_digits text) as [|c rest]; [done|]. cbn.
  by destruct (Nat.leb (String.length rest) 1), (Nat.leb (String.length rest) 3).
Qed.

(** ** Calendar arithmetic *)

Open Scope Z_scope.

Lemma month_cases (m : Z) :
  0 ≤ m ≤ 11 →
  m = 0 ∨ m = 1 ∨ m = 2 ∨ m = 3 ∨ m = 4 ∨ m = 5 ∨ m = 6 ∨ m = 7 ∨ m = 8
  ∨ m = 9 ∨ m = 10 ∨ m = 11.
Proof. lia. Qed.

Ltac each_month H :=
  apply month_cases in H;
  repeat (destruct H as [H|H]; [subst|]); subst.

Ltac const_div_mod :=
  repeat match goal with
         | |- context [?a `div` 12] =>
             let v := eval vm_compute in (a `div` 12) in change (a `div` 12) with v
         | |- context [?a `mod` 12] =>
             let v := eval vm_compute in (a `mod` 12) in change (a `mod` 12) with v
         end.

Ltac const_add :=
  repeat match goal with
         | |- context [Z.add ?a (Zpos ?p)] =>
             lazymatch a with Z0 => idtac | Zpos _ => idtac end;
             let v := eval vm_compute in (Z.add a (Zpos p)) in
             change (Z.add a (Zpos p)) with v
         end.

Ltac unfold_calendar :=
  unfold MakeDay; const_div_mod; rewrite ?Z.add_0_r;
  unfold DaysInMonth; const_add;
  unfold DaysBeforeMonth; cbn [Z.eqb Pos.eqb];
  unfold InLeapYear, DaysInYear;
  repeat match goal with
         | |- context [?a `mod` ?b =? 0] => destruct (Z.eqb_spec (a `mod` b) 0)
         end;
  cbn [negb Z.eqb Pos.eqb];
  unfold DayFromYear.

(** Three months on, the same day of the month lies 89 to 92 days ahead. *)
Lemma three_months_ahead (y m d : Z) :
  0 ≤ m ≤ 11 → 89 ≤ MakeDay y (m + 3) d - MakeDay y m d ≤ 92.
Proof.
  intros Hm. each_month Hm; unfold_calendar; Z.div_mod_to_equations; lia.
Qed.

Lemma DaysInMonth_bound (y m : Z) : 0 ≤ m ≤ 11 → 28 ≤ DaysInMonth y m ≤ 31.
Proof. intros Hm. each_month Hm; unfold_calendar; lia. Qed.

Lemma valid_reading_spec (r : Reading) :
  valid_reading r = true →
  0 ≤ getMonth r ≤ 11
  ∧ 1 ≤ getDate r ≤ DaysInMonth (getFullYear r) (getMonth r)
  ∧ 0 ≤ timeWithinDay r < msPerDay
  ∧ 1970 ≤ getFullYear r ≤ 9999.
Proof.
  unfold valid_reading. rewrite !andb_true_iff.
  rewrite !Z.leb_le, Z.ltb_lt. tauto.
Qed.

Lemma day_of_bounds (r : Reading) :
  valid_reading r = true → 0 ≤ day_of r ≤ 2932896.
Proof.
  intros (Hm & Hd & _ & Hy)%valid_reading_spec.
  pose proof (DaysInMonth_bound (getFullYear r) (getMonth r) Hm) as Hdim.
  unfold day_of. destruct r as [y m d t]. cbn in *.
  each_month Hm; unfold_calendar; Z.div_mod_to_equations; lia.
Qed.

Lemma TimeClip_small (t : Z) : Z.abs t ≤ 8640000000000000 → TimeClip t = Some t.
Proof. intros Ht. unfold TimeClip. by rewrite (proj2 (Z.leb_le _ _)). Qed.


(** *** Writing a date and reading it back *)

Lemma reads_back_spec (width : nat) (n : Z) :
  reads_back width n = true →
  String.length (padStart width "0" (pretty n)) = width
  ∧ string_forall is_digit (padStart width "0" (pretty n)) = true
  ∧ parseInt (padStart width "0" (pretty n)) = Some n.
Proof.
  unfold reads_back. rewrite !andb_true_iff, Nat.eqb_eq, bool_decide_eq_true. tauto.
Qed.

Lemma two_digits_read_back (n : Z) : 1 ≤ n ≤ 31 → reads_back 2 n = true.
Proof.
  intros Hn.
  assert (Forall (λ k, reads_back 2 k = true) (seqZ 1 31)) as Hall by decide_closed.
  rewrite Forall_forall in Hall. apply Hall, elem_of_seqZ. lia.
Qed.

Lemma four_digits_read_back (n : Z) : 1970 ≤ n ≤ 9999 → reads_back 4 n = true.
Proof.
  intros Hn.
  assert (Forall (λ k, reads_back 4 k = true) (seqZ 1970 8030)) as Hall
    by decide_closed.
  rewrite Forall_forall in Hall. apply Hall, elem_of_seqZ. lia.
Qed.

Lemma match_date_written (day month year : string) :
  String.length day = 2%nat → String.length month = 2%nat →
  String.length year = 4%nat →
  string_forall is_digit day = true → string_forall is_digit month = true →
  string_forall is_digit year = true →
  match_date (day +:+ "/" +:+ month +:+ "/" +:+ year) = Some (day, month, year).
Proof.
  intros Hd Hm Hy Dd Dm Dy.
  destruct day as [|d1 [|d2 [|]]]; try discriminate.
  destruct month as [|m1 [|m2 [|]]]; try discriminate.
  destruct year as [|y1 [|y2 [|y3 [|y4 [|]]]]]; try discriminate.
  digits_of Dd. digits_of Dm. digits_of Dy. by use_digits.
Qed.

(** The validator on a date written out in full. *)
Lemma validateDate_written clock (target : Reading) :
  valid_reading target = true →
  validateDate clock (date_text target)
  = date_ge (Some (day_of target * msPerDay)) (valueOf (clock_today clock))
    && date_le (Some (day_of target * msPerDay))
         (setMonth (clock_base clock) (getMonth (clock_month clock) + 3)).
Proof.
  intros Hv. pose proof (day_of_bounds target Hv) as Hday.
  apply valid_reading_spec in Hv as (Hm & Hd & _ & Hy).
  pose proof (DaysInMonth_bound (getFullYear target) (getMonth target) Hm) as Hdim.
  destruct (reads_back_spec 2 (getDate target)) as (Hl1 & Hg1 & Hp1);
    [apply two_digits_read_back; lia|].
  destruct (reads_back_spec 2 (getMonth target + 1)) as (Hl2 & Hg2 & Hp2);
    [apply two_digits_read_back; lia|].
  destruct (reads_back_spec 4 (getFullYear target)) as (Hl3 & Hg3 & Hp3);
    [by apply four_digits_read_back|].
  unfold validateDate, date_text, two_digits.
  rewrite match_date_written by done.
  rewrite Hp1, Hp2, Hp3. cbn [option_pred fmap option_fmap option_map new_Date].
  rewrite (proj2 (Z.leb_gt (getFullYear target) 99)) by lia. rewrite andb_false_r.
  replace (getMonth target + 1 - 1) with (getMonth target) by lia.
  fold (day_of target). unfold MakeDate. rewrite Z.add_0_r.
  rewrite TimeClip_small; [done|]. unfold msPerDay. lia.
Qed.

Lemma valueOf_valid (r : Reading) :
  valid_reading r = true →
  valueOf r = Some (day_of r * msPerDay + timeWithinDay r).
Proof.
  intros Hv. pose proof (day_of_bounds r Hv) as Hday.
  apply valid_reading_spec in Hv as (_ & _ & Ht & _).
  unfold valueOf, MakeDate. fold (day_of r).
  apply TimeClip_small. unfold msPerDay in *. lia.
Qed.

Lemma setMonth_valid (r : Reading) :
  valid_reading r = true →
  ∃ ahead, 89 ≤ ahead ≤ 92
           ∧ setMonth r (getMonth r + 3)
             = Some ((day_of r + ahead) * msPerDay + timeWithinDay r).
Proof.
  intros Hv. pose proof (day_of_bounds r Hv) as Hday.
  apply valid_reading_spec in Hv as (Hm & _ & Ht & _).
  pose proof (three_months_ahead (getFullYear r) (getMonth r) (getDate r) Hm) as H3.
  fold (day_of r) in H3.
  exists (MakeDay (getFullYear r) (getMonth r + 3) (getDate r) - day_of r).
  split; [done|]. unfold setMonth, MakeDate.
  replace (day_of r + (MakeDay (getFullYear r) (getMonth r + 3) (getDate r) - day_of r))
    with (MakeDay (getFullYear r) (getMonth r + 3) (getDate r)) by lia.
  apply TimeClip_small. unfold msPerDay in *. lia.
Qed.

(** ** The window of accepted dates *)

(** X15.  Today's own date is turned down: with a clock that stands still
    during the call it is accepted only when the clock reads midnight to the
    millisecond, and with any clock whose first reading is later than
    midnight it is rejected. *)
Theorem validateDate_today (now : Reading) :
  valid_reading now = true →
  validateDate (frozen now) (date_text now) = (timeWithinDay now =? 0)
  ∧ ∀ clock, clock_today clock = now → 0 < timeWithinDay now →
             validateDate clock (date_text now) = false.
Proof.
  intros Hv. pose proof (valid_reading_spec now Hv) as (_ & _ & Ht & _).
  split.
  - rewrite (validateDate_written _ _ Hv). cbn [frozen clock_today clock_base clock_month].
    rewrite (valueOf_valid _ Hv).
    destruct (setMonth_valid _ Hv) as (ahead & Hahead & ->).
    cbn [date_ge date_le]. unfold msPerDay in *.
    destruct (Z.eqb_spec (timeWithinDay now) 0) as [H0|H0].
    + rewrite !(proj2 (Z.leb_le _ _)) by lia. done.
    + rewrite (proj2 (Z.leb_gt _ _)) by lia. done.
  - intros clock Hc Hpos. rewrite (validateDate_written _ _ Hv), Hc.
    rewrite (valueOf_valid _ Hv). cbn [date_ge].
    by rewrite (proj2 (Z.leb_gt _ _)) by lia.
Qed.

(** X16.  With a clock that stands still during the call, every date from
    tomorrow up to 89 days ahead is accepted, and every date before today or
    more than 92 days ahead is rejected. *)
Theorem validateDate_window (now target : Reading) :
  valid_reading now = true →
  valid_reading target = true →
  (1 ≤ day_of target - day_of now ≤ 89 →
   validateDate (frozen now) (date_text target) = true)
  ∧ (day_of target < day_of now ∨ 92 < day_of target - day_of now →
     validateDate (frozen now) (date_text target) = false).
Proof.
  intros Hv Hvt. pose proof (valid_reading_spec now Hv) as (_ & _ & Ht & _).
  rewrite (validateDate_written _ _ Hvt). cbn [frozen clock_today clock_base clock_month].
  rewrite (valueOf_valid _ Hv).
  destruct (setMonth_valid _ Hv) as (ahead & Hahead & ->).
  cbn [date_ge date_le]. unfold msPerDay in *. split.
  - intros Hd. by rewrite !(proj2 (Z.leb_le _ _)) by lia.
  - intros [Hd|Hd].
    + by rewrite (proj2 (Z.leb_gt _ _)) by lia.
    + rewrite (proj2 (Z.leb_gt (day_of target * _) _)) by lia. apply andb_false_r.
Qed.

Close Scope Z_scope.

(** Dates that do not exist are not turned down, they roll over: the 32nd
    of November is read as the 2nd of December, day 00 as the last day of the
    month before; a year written 0026 is read as 1926. *)
Example overflowing_dates :
  let now := {| getFullYear := 2026; getMonth := 10; getDate := 2;
                timeWithinDay := 3600000 |} in
  valid_reading now = true
  ∧ validateDate (frozen now) "32/11/2026" = true
  ∧ validateDate (frozen now) "00/12/2026" = true
  ∧ validateDate (frozen now) "31/02/2027" = false
  ∧ validateDate (frozen now) "03/11/0026" = false.
Proof. cbv zeta. repeat split; vm_compute; reflexivity. Qed.

(** ** Submitting the form *)





(** An empty field is reported before the date is looked at. *)
Example handleSubmit_empty_field_first :
  ∀ clock, handleSubmit clock
             {| selectedDoctor := "1"; dateInput := "not a date";
                selectedTime := ""; description := "Retorno" |}
           = Alert "Por favor, preencha todos os campos".
Proof. reflexivity. Qed.

Lemma partial_date_is_flagged_witness :
  let now := {| getFullYear := 2026; getMonth := 10; getDate := 2;
                timeWithinDay := 3600000 |} in
  (String.length (remove_non_digits "10/11/20") < 8)%nat
  ∧ validateDate (frozen now) (handleDateChange "10/11/20") = false
  ∧ date_errorMessage (frozen now) (handleDateChange "10/11/20")
    = Some "Data inválida".
Proof.
  cbv zeta. split; [vm_compute; lia|].
  apply (partial_date_is_flagged
           (frozen {| getFullYear := 2026; getMonth := 10; getDate := 2;
                      timeWithinDay := 3600000 |}) "10/11/20").
  vm_compute. lia.
Defined.

Lemma validateDate_today_witness :
  let now := {| getFullYear := 2026; getMonth := 10; getDate := 2;
                timeWithinDay := 3600000 |} in
  valid_reading now = true
  ∧ date_text now = "02/11/2026"
  ∧ validateDate (frozen now) (date_text now) = (timeWithinDay now =? 0)%Z.
Proof.
  cbv zeta. split; [reflexivity|]. split; [vm_compute; reflexivity|].
  apply (proj1 (validateDate_today
                  {| getFullYear := 2026; getMonth := 10; getDate := 2;
                     timeWithinDay := 3600000 |} eq_refl)).
Defined.

Lemma validateDate_window_witness :
  let now := {| getFullYear := 2026; getMonth := 10; getDate := 30;
                timeWithinDay := 3600000 |} in
  let target := {| getFullYear := 2027; getMonth := 1; getDate := 27;
                   timeWithinDay := 0 |} in
  valid_reading now = true
  ∧ valid_reading target = true
  ∧ (day_of target - day_of now = 89)%Z
  ∧ validateDate (frozen now) (date_text target) = true.
Proof.
  cbv zeta. split; [reflexivity|]. split; [reflexivity|]. split; [reflexivity|].
  apply (proj1 (validateDate_window
                  {| getFullYear := 2026; getMonth := 10; getDate := 30;
                     timeWithinDay := 3600000 |}
                  {| getFullYear := 2027; getMonth := 1; getDate := 27;
                     timeWithinDay := 0 |} eq_refl eq_refl)).
  vm_compute. split; discriminate.
Defined.

(** ** The status of an appointment card *)

(** X18.  For every status string the dot's colour and the label agree:
    green with Confirmada exactly for [confirmed], red with Cancelada
    exactly for [cancelled], and the primary colour with Pendente for
    [pending] and for anything else. *)
Theorem status_colour_matches_label (status : string) :
  (getStatusColor status = theme.success ↔ status = "confirmed")
  ∧ (statusLabel status = "Confirmada" ↔ status = "confirmed")
  ∧ (getStatusColor status = theme.error ↔ status = "cancelled")
  ∧ (statusLabel status = "Cancelada" ↔ status = "cancelled")
  ∧ (getStatusColor status = theme.primary ↔ statusLabel status = "Pendente").
Proof.
  unfold getStatusColor, statusLabel.
  destruct (String.eqb_spec status "confirmed") as [->|Hc];
    [by repeat split|].
  destruct (String.eqb_spec status "cancelled") as [->|Hx];
    by repeat split.
Qed.

(** ** The reason of a cancellation *)

Open Scope list_scope.

Lemma trimStart_spec (s : list N) :
  ∃ pre, s = pre ++ trimStart s
         ∧ Forall (λ u, is_white_space u = true) pre
         ∧ match trimStart s with
           | u :: _ => is_white_space u = false
           | [] => True
           end.
Proof.
  induction s as [|u rest (pre & Heq & Hpre & Hhd)]; [by exists []|].
  cbn. destruct (is_white_space u) eqn:Hu.
  - exists (u :: pre). split; [by rewrite Heq at 1|]. split; [by constructor|done].
  - by exists [].
Qed.

Lemma trimStart_fixed (s : list N) :
  match s with u :: _ => is_white_space u = false | [] => True end →
  trimStart s = s.
Proof. destruct s as [|u rest]; [done|]. cbn. by intros ->. Qed.

(** X19.  Confirming hands [onConfirm] either nothing or a reason that is
    not empty and neither starts nor ends with white space: nothing exactly
    when the typed reason is empty or all white space; otherwise the typed
    reason with the white space at its two ends removed and its middle left
    as typed.  Either way the field is cleared and the modal closed after
    [onConfirm] has been called. *)
Theorem handleConfirm_reason (reason : list N) :
  ∃ sent, handleConfirm reason = [OnConfirm sent; SetReason []; OnClose]
          ∧ match sent with
            | None => Forall (λ u, is_white_space u = true) reason
            | Some t =>
                (∃ first, head t = Some first ∧ is_white_space first = false)
                ∧ (∃ final, last t = Some final ∧ is_white_space final = false)
                ∧ ∃ pre post,
                    reason = pre ++ t ++ post
                    ∧ Forall (λ u, is_white_space u = true) pre
                    ∧ Forall (λ u, is_white_space u = true) post
            end.
Proof.
  unfold handleConfirm, trim.
  destruct (trimStart_spec reason) as (pre & Hreason & Hpre & Hfirst).
  destruct (trimStart_spec (reverse (trimStart reason))) as (tsop & Hrev & Hpost & Hlast).
  set (kept := trimStart (reverse (trimStart reason))) in *.
  assert (trimStart reason = reverse kept ++ reverse tsop) as Hmid.
  { rewrite <- reverse_app, <- Hrev. by rewrite reverse_involutive. }
  destruct (reverse kept) as [|first t] eqn:Hkept.
  - exists None. split; [done|]. rewrite Hreason, Hmid. cbn.
    apply Forall_app. split; [done|]. by apply Forall_reverse.
  - exists (Some (first :: t)). split; [done|]. split; [|split].
    + exists first. split; [done|]. rewrite Hmid in Hfirst. done.
    + destruct kept as [|final kept'] using rev_ind; [done|]. clear IHkept'.
      rewrite reverse_snoc in Hkept. injection Hkept as <- <-.
      destruct kept' as [|k kept''].
      * cbn in *. exists final. done.
      * exists k. split; [|done].
        change (final :: reverse (k :: kept'')) with ([final] ++ reverse (k :: kept'')).
        rewrite reverse_cons, app_assoc. apply last_snoc.
    + exists pre, (reverse tsop). rewrite Hreason at 1. rewrite Hmid.
      split; [done|]. split; [done|]. by apply Forall_reverse.
Qed.

Close Scope list_scope.
